(** * The connection runner and the session manager

    A shallow embedding of [backend/modules/connection_runner.py] and
    [backend/modules/session_manager.py], and what holds of them.

    Definitions:
    - [PyJson] : Python values and the [json] module the runner's wire
      protocol is built on ([json.dumps], [json.loads]).
    - [Runner] : the [ConnectionRunner] class: the dispatcher, the message
      pump, [stop] and the state-change handler, and the worker as a
      machine whose steps are the stretches of code between two
      suspension points.
    - [Sessions] : the [SessionManager] class over a finite map.

    Facts, in the same order: [loads] reads back what [dumps] writes; the
    wire protocol; the dispatcher; the pump, [stop] and the state-change
    handler; the session manager.
*)

From Stdlib Require Import ZArith NArith List Lia Bool String Ascii.
From Stdlib Require Import DecimalN DecimalPos DecimalFacts.
From stdpp Require Import base option gmap.
Import ListNotations.

Local Open Scope N_scope.

(** ** Python strings

    A Python [str] is a sequence of code points.  String literals of the
    source are written [lit "..."]. *)

Abbreviation char := N (only parsing).
Abbreviation str := (list N) (only parsing).

Definition lit (s : string) : str :=
  List.map N_of_ascii (list_ascii_of_string s).

Module PyJson.

(** *** Values

    The values that travel through the protocol.  A [dict] keeps its keys
    in insertion order; its keys are strings, as in every object that
    [json.loads] builds.  A [float] is carried by the decimal text that
    denotes it ([float.__repr__]); two texts denoting the same binary64
    number are not identified. *)

#[warnings="-register-all"]
Inductive value : Type :=
| VNone
| VBool (b : bool)
| VInt (z : Z)
| VFloat (repr : str)
| VStr (s : str)
| VList (xs : list value)
| VDict (kvs : list (str * value)).

Section value_induction.
Variable P : value -> Prop.
Hypothesis HNone : P VNone.
Hypothesis HBool : forall b, P (VBool b).
Hypothesis HInt : forall z, P (VInt z).
Hypothesis HFloat : forall r, P (VFloat r).
Hypothesis HStr : forall s, P (VStr s).
Hypothesis HList : forall xs, Forall P xs -> P (VList xs).
Hypothesis HDict : forall kvs, Forall (fun kv => P (snd kv)) kvs -> P (VDict kvs).

Fixpoint value_nested_ind (v : value) : P v :=
  match v with
  | VNone => HNone
  | VBool b => HBool b
  | VInt z => HInt z
  | VFloat r => HFloat r
  | VStr s => HStr s
  | VList xs =>
      HList xs
        ((fix go (l : list value) : Forall P l :=
            match l with
            | [] => List.Forall_nil P
            | x :: l' => List.Forall_cons P x l' (value_nested_ind x) (go l')
            end) xs)
  | VDict kvs =>
      HDict kvs
        ((fix go (l : list (str * value)) : Forall (fun kv => P (snd kv)) l :=
            match l with
            | [] => List.Forall_nil _
            | kv :: l' => List.Forall_cons _ kv l' (value_nested_ind (snd kv)) (go l')
            end) kvs)
  end.
End value_induction.

(** *** Dictionaries: [d[k]], [k in d], [d[k] = v] *)

Definition str_eqb (a b : str) : bool := bool_decide (a = b).

Fixpoint dict_get {A} (d : list (str * A)) (k : str) : option A :=
  match d with
  | [] => None
  | (k', v) :: d' => if str_eqb k' k then Some v else dict_get d' k
  end.

Fixpoint dict_set {A} (d : list (str * A)) (k : str) (v : A) : list (str * A) :=
  match d with
  | [] => [(k, v)]
  | (k', v') :: d' =>
      if str_eqb k' k then (k', v) :: d' else (k', v') :: dict_set d' k v
  end.

(** [dict(pairs)]: the pairs are stored one after the other. *)
Definition dict_of_pairs {A} (pairs : list (str * A)) : list (str * A) :=
  fold_left (fun d kv => dict_set d (fst kv) (snd kv)) pairs [].

(** *** [json.dumps]

    The default encoder: [ensure_ascii=True], separators [", "] and
    [": "], no indentation. *)

Definition hex_digit (d : N) : char :=
  if d <? 10 then 48 + d else 87 + d.

(** ['\\u{0:04x}'.format(n)] *)
Definition escape_u (n : N) : str :=
  [92; 117; hex_digit (n / 4096); hex_digit ((n / 256) mod 16);
   hex_digit ((n / 16) mod 16); hex_digit (n mod 16)].

(** One character of [encode_basestring_ascii]. *)
Definition escape_char (c : char) : str :=
  if c =? 34 then [92; 34]
  else if c =? 92 then [92; 92]
  else if c =? 10 then [92; 110]
  else if c =? 13 then [92; 114]
  else if c =? 9 then [92; 116]
  else if c =? 8 then [92; 98]
  else if c =? 12 then [92; 102]
  else if (32 <=? c) && (c <=? 126) then [c]
  else if c <? 65536 then escape_u c
  else
    let n := c - 65536 in
    escape_u (N.lor 55296 (N.land (N.shiftr n 10) 1023))
      ++ escape_u (N.lor 56320 (N.land n 1023)).

Definition encode_basestring_ascii (s : str) : str :=
  34 :: flat_map escape_char s ++ [34].

Fixpoint digits_of_uint (d : Decimal.uint) : str :=
  match d with
  | Decimal.Nil => []
  | Decimal.D0 d => 48 :: digits_of_uint d
  | Decimal.D1 d => 49 :: digits_of_uint d
  | Decimal.D2 d => 50 :: digits_of_uint d
  | Decimal.D3 d => 51 :: digits_of_uint d
  | Decimal.D4 d => 52 :: digits_of_uint d
  | Decimal.D5 d => 53 :: digits_of_uint d
  | Decimal.D6 d => 54 :: digits_of_uint d
  | Decimal.D7 d => 55 :: digits_of_uint d
  | Decimal.D8 d => 56 :: digits_of_uint d
  | Decimal.D9 d => 57 :: digits_of_uint d
  end.

(** [int.__repr__] *)
Definition int_repr (z : Z) : str :=
  match z with
  | Z0 => [48]
  | Zpos p => digits_of_uint (Pos.to_uint p)
  | Zneg p => 45 :: digits_of_uint (Pos.to_uint p)
  end.

(** The elements after the first one, and the closing bracket. *)
Fixpoint join_items (d : value -> str) (l : list value) : str :=
  match l with
  | [] => [93]
  | y :: l' => 44 :: 32 :: d y ++ join_items d l'
  end.

(** The members after the first one, and the closing brace. *)
Fixpoint join_members (d : value -> str) (l : list (str * value)) : str :=
  match l with
  | [] => [125]
  | (k, y) :: l' =>
      44 :: 32 :: encode_basestring_ascii k ++ 58 :: 32 :: d y ++ join_members d l'
  end.

Fixpoint dumps (v : value) : str :=
  match v with
  | VNone => lit "null"
  | VBool true => lit "true"
  | VBool false => lit "false"
  | VInt z => int_repr z
  | VFloat r => r
  | VStr s => encode_basestring_ascii s
  | VList [] => lit "[]"
  | VList (x :: xs) => 91 :: dumps x ++ join_items dumps xs
  | VDict [] => lit "{}"
  | VDict ((k, x) :: kvs) =>
      123 :: encode_basestring_ascii k ++ 58 :: 32 :: dumps x
          ++ join_members dumps kvs
  end.

(** *** [json.loads]

    The scanner of [json.decoder] and [json.scanner].  [None] stands for
    [json.JSONDecodeError]. *)

Definition is_ws (c : char) : bool :=
  (c =? 32) || (c =? 9) || (c =? 10) || (c =? 13).

Fixpoint skip_ws (s : str) : str :=
  match s with
  | c :: r => if is_ws c then skip_ws r else s
  | [] => []
  end.

Definition is_digit (c : char) : bool := (48 <=? c) && (c <=? 57).

Fixpoint span_digits (s : str) : str * str :=
  match s with
  | c :: r =>
      if is_digit c then let (ds, r') := span_digits r in (c :: ds, r')
      else ([], s)
  | [] => ([], [])
  end.

(** The integer part: an optional minus sign, then either a single zero
    or a digit from 1 to 9 followed by any digits. *)
Definition lex_unsigned (s : str) : option (str * str) :=
  match s with
  | c :: r =>
      if c =? 48 then Some ([48], r)
      else if is_digit c then
        let (ds, r') := span_digits r in Some (c :: ds, r')
      else None
  | [] => None
  end.

Definition lex_int (s : str) : option (str * str) :=
  match s with
  | c :: r =>
      if c =? 45 then
        match lex_unsigned r with
        | Some (t, r') => Some (45 :: t, r')
        | None => None
        end
      else lex_unsigned s
  | [] => None
  end.

(** The optional fraction: a dot followed by at least one digit. *)
Definition lex_frac (s : str) : str * str :=
  match s with
  | p :: c :: r =>
      if (p =? 46) && is_digit c then
        let (ds, r') := span_digits r in (p :: c :: ds, r')
      else ([], s)
  | _ => ([], s)
  end.

(** The optional exponent: [e] or [E], an optional sign, at least one
    digit. *)
Definition lex_exp_sign (r : str) : str * str :=
  match r with
  | c :: r' => if (c =? 45) || (c =? 43) then ([c], r') else ([], r)
  | [] => ([], r)
  end.

Definition lex_exp (s : str) : str * str :=
  match s with
  | e :: r =>
      if (e =? 101) || (e =? 69) then
        let (sg, r1) := lex_exp_sign r in
        match span_digits r1 with
        | ([], _) => ([], s)
        | (ds, r2) => (e :: sg ++ ds, r2)
        end
      else ([], s)
  | [] => ([], s)
  end.

Fixpoint uint_of_digits (s : str) : Decimal.uint :=
  match s with
  | [] => Decimal.Nil
  | c :: r =>
      let d := uint_of_digits r in
      match c - 48 with
      | 0 => Decimal.D0 d | 1 => Decimal.D1 d | 2 => Decimal.D2 d
      | 3 => Decimal.D3 d | 4 => Decimal.D4 d | 5 => Decimal.D5 d
      | 6 => Decimal.D6 d | 7 => Decimal.D7 d | 8 => Decimal.D8 d
      | _ => Decimal.D9 d
      end
  end.

(** [int(text)] on the text of an integer part. *)
Definition int_of_text (t : str) : Z :=
  match t with
  | c :: ds =>
      if c =? 45 then Z.opp (Z.of_N (N.of_uint (uint_of_digits ds)))
      else Z.of_N (N.of_uint (uint_of_digits t))
  | [] => 0%Z
  end.

(** A number: an [int] when it has neither fraction nor exponent, a
    [float] otherwise. *)
Definition lex_number (s : str) : option (value * str) :=
  match lex_int s with
  | None => None
  | Some (i, r1) =>
      let (f, r2) := lex_frac r1 in
      let (e, r3) := lex_exp r2 in
      match f, e with
      | [], [] => Some (VInt (int_of_text i), r3)
      | _, _ => Some (VFloat (i ++ f ++ e), r3)
      end
  end.

Definition hex_value (c : char) : option N :=
  if (48 <=? c) && (c <=? 57) then Some (c - 48)
  else if (97 <=? c) && (c <=? 102) then Some (c - 87)
  else if (65 <=? c) && (c <=? 70) then Some (c - 55)
  else None.

(** The four hexadecimal digits of a [\uXXXX] escape. *)
Definition decode_hex4 (a b c d : char) : option N :=
  match hex_value a, hex_value b, hex_value c, hex_value d with
  | Some x, Some y, Some z, Some w =>
      Some (N.lor (N.shiftl (N.lor (N.shiftl (N.lor (N.shiftl x 4) y) 4) z) 4) w)
  | _, _, _, _ => None
  end.

Definition is_high_surrogate (c : N) : bool := (55296 <=? c) && (c <=? 56319).
Definition is_low_surrogate (c : N) : bool := (56320 <=? c) && (c <=? 57343).
Definition join_surrogates (h l : N) : N :=
  65536 + N.lor (N.shiftl (N.land h 1023) 10) (N.land l 1023).

(** The short escapes after a backslash. *)
Definition backslash (c : char) : option char :=
  if c =? 34 then Some 34
  else if c =? 92 then Some 92
  else if c =? 47 then Some 47
  else if c =? 98 then Some 8
  else if c =? 102 then Some 12
  else if c =? 110 then Some 10
  else if c =? 114 then Some 13
  else if c =? 116 then Some 9
  else None.

(** [scanstring] (strict), started after the opening quote: the decoded
    string and the text after the closing quote. *)
Fixpoint scanstring (s : str) : option (str * str) :=
  match s with
  | [] => None
  | c :: r =>
      if c =? 34 then Some ([], r)
      else if c =? 92 then
        match r with
        | [] => None
        | e :: r1 =>
            if e =? 117 then
              match r1 with
              | h1 :: h2 :: h3 :: h4 :: r2 =>
                  match decode_hex4 h1 h2 h3 h4 with
                  | None => None
                  | Some u =>
                      let single :=
                        match scanstring r2 with
                        | Some (t, r') => Some (u :: t, r')
                        | None => None
                        end in
                      if is_high_surrogate u then
                        match r2 with
                        | b :: x :: l1 :: l2 :: l3 :: l4 :: r3 =>
                            if (b =? 92) && (x =? 117) then
                              match decode_hex4 l1 l2 l3 l4 with
                              | None => None
                              | Some u2 =>
                                  if is_low_surrogate u2 then
                                    match scanstring r3 with
                                    | Some (t, r') => Some (join_surrogates u u2 :: t, r')
                                    | None => None
                                    end
                                  else single
                              end
                            else single
                        | _ => single
                        end
                      else single
                  end
              | _ => None
              end
            else
              match backslash e with
              | None => None
              | Some c' =>
                  match scanstring r1 with
                  | Some (t, r') => Some (c' :: t, r')
                  | None => None
                  end
              end
        end
      else if c <? 32 then None
      else
        match scanstring r with
        | Some (t, r') => Some (c :: t, r')
        | None => None
        end
  end.

Fixpoint strip_prefix (p s : str) : option str :=
  match p, s with
  | [], _ => Some s
  | a :: p', b :: s' => if a =? b then strip_prefix p' s' else None
  | _ :: _, [] => None
  end.

(** The loop of [JSONArray], entered at the first element. *)
Fixpoint array_items (scan : str -> option (value * str)) (n : nat)
    (s : str) (acc : list value) : option (list value * str) :=
  match n with
  | O => None
  | S n =>
      match scan s with
      | None => None
      | Some (v, r) =>
          match skip_ws r with
          | c :: r' =>
              if c =? 93 then Some (rev (v :: acc), r')
              else if c =? 44 then array_items scan n (skip_ws r') (v :: acc)
              else None
          | [] => None
          end
      end
  end.

(** The loop of [JSONObject], entered at the first property name. *)
Fixpoint object_items (scan : str -> option (value * str)) (n : nat)
    (s : str) (acc : list (str * value)) : option (list (str * value) * str) :=
  match n with
  | O => None
  | S n =>
      match s with
      | q :: r0 =>
          if q =? 34 then
            match scanstring r0 with
            | None => None
            | Some (k, r1) =>
                match skip_ws r1 with
                | c :: r2 =>
                    if c =? 58 then
                      match scan (skip_ws r2) with
                      | None => None
                      | Some (v, r3) =>
                          match skip_ws r3 with
                          | c' :: r4 =>
                              if c' =? 125 then Some (dict_set acc k v, r4)
                              else if c' =? 44 then
                                object_items scan n (skip_ws r4) (dict_set acc k v)
                              else None
                          | [] => None
                          end
                      end
                    else None
                | [] => None
                end
            end
          else None
      | [] => None
      end
  end.

(** [scan_once].  The first argument bounds the nesting and the number of
    elements; [loads] passes more than the text can use. *)
Fixpoint scan_once (n : nat) (s : str) : option (value * str) :=
  match n with
  | O => None
  | S n =>
      match s with
      | [] => None
      | c :: r =>
          if c =? 34 then
            match scanstring r with
            | Some (t, r') => Some (VStr t, r')
            | None => None
            end
          else if c =? 123 then
            match skip_ws r with
            | c' :: r' =>
                if c' =? 125 then Some (VDict [], r')
                else
                  match object_items (scan_once n) n (c' :: r') [] with
                  | Some (kvs, r'') => Some (VDict kvs, r'')
                  | None => None
                  end
            | [] => None
            end
          else if c =? 91 then
            match skip_ws r with
            | c' :: r' =>
                if c' =? 93 then Some (VList [], r')
                else
                  match array_items (scan_once n) n (c' :: r') [] with
                  | Some (xs, r'') => Some (VList xs, r'')
                  | None => None
                  end
            | [] => None
            end
          else
            match strip_prefix (lit "null") s with
            | Some r' => Some (VNone, r')
            | None =>
            match strip_prefix (lit "true") s with
            | Some r' => Some (VBool true, r')
            | None =>
            match strip_prefix (lit "false") s with
            | Some r' => Some (VBool false, r')
            | None =>
            match strip_prefix (lit "NaN") s with
            | Some r' => Some (VFloat (lit "NaN"), r')
            | None =>
            match strip_prefix (lit "Infinity") s with
            | Some r' => Some (VFloat (lit "Infinity"), r')
            | None =>
            match strip_prefix (lit "-Infinity") s with
            | Some r' => Some (VFloat (lit "-Infinity"), r')
            | None => lex_number s
            end end end end end end
      end
  end.

(** [s.startswith('\ufeff')] *)
Definition has_bom (s : str) : bool :=
  match s with
  | c :: _ => c =? 65279
  | [] => false
  end.

(** [json.loads(s)] for a [str]: no byte-order mark, one value between
    optional white space, nothing after it. *)
Definition loads (s : str) : option value :=
  if has_bom s then None
  else
    let s' := skip_ws s in
    match scan_once (S (length s')) s' with
    | Some (v, r) => match skip_ws r with [] => Some v | _ => None end
    | None => None
    end.

(** *** The values [json] represents

    A [str] is text when every code point is a Unicode scalar value
    (below 0x110000 and not a surrogate).  A [float] is finite or
    infinite; a not-a-number is unequal to itself and stays out.  The
    keys of a [dict] are pairwise different. *)

Definition scalar (c : char) : bool :=
  (c <? 1114112) && negb ((55296 <=? c) && (c <=? 57343)).

Definition is_float_literal (r : str) : bool :=
  match lex_number r with
  | Some (VFloat _, []) => true
  | _ => false
  end.

Definition is_float_repr (r : str) : bool :=
  is_float_literal r
  || str_eqb r (lit "Infinity") || str_eqb r (lit "-Infinity").

Fixpoint keys_unique (ks : list str) : bool :=
  match ks with
  | [] => true
  | k :: ks' => negb (existsb (str_eqb k) ks') && keys_unique ks'
  end.

Fixpoint well_formed (v : value) : bool :=
  match v with
  | VNone | VBool _ | VInt _ => true
  | VFloat r => is_float_repr r
  | VStr s => forallb scalar s
  | VList xs => forallb well_formed xs
  | VDict kvs =>
      keys_unique (List.map fst kvs)
      && forallb (fun kv => forallb scalar (fst kv) && well_formed (snd kv)) kvs
  end.

(** The number of nodes of a value. *)
Fixpoint size (v : value) : nat :=
  match v with
  | VList xs => S (list_sum (List.map size xs))
  | VDict kvs => S (list_sum (List.map (fun kv => size (snd kv)) kvs))
  | _ => 1%nat
  end.

(** *** Characters of the printed text

    What the proofs about [dumps] and [loads] speak of. *)

(** The text after a value: nothing, or a comma, a closing bracket or
    brace, or the end of the line. *)
Definition delimited (rest : str) : Prop :=
  match rest with
  | [] => True
  | c :: _ => c = 44 \/ c = 93 \/ c = 125 \/ c = 10
  end.

(** The characters of a number. *)
Definition numchar (c : char) : bool :=
  is_digit c || (c =? 45) || (c =? 43) || (c =? 46) || (c =? 101) || (c =? 69).

(** The first character of a printed value. *)
Definition value_start (c : char) : bool :=
  (c =? 34) || (c =? 45) || is_digit c || (c =? 91) || (c =? 123)
  || (c =? 110) || (c =? 116) || (c =? 102) || (c =? 73).


End PyJson.

Import PyJson.

(** ** The connection runner *)

Module Runner.

(** *** What the worker does to the outside

    A line printed on standard output, or a record handed to the
    [logging] module.  The text of a record is kept as the pieces of its
    f-string. *)

Inductive level := DEBUG | INFO | WARNING | ERROR.

(** Modelled from the spec: the enumeration [ConnectionState] of
    [modules/connection_state.py], which is not among the sources.  The
    spec names these members; the payload [state.value] of a member is
    taken as a parameter ([state_value] below). *)
Inductive ConnectionState := NEW | CONNECTING | CONNECTED | CLOSED | FAILED.

Inductive fragment :=
| Txt (s : string)
| Arg (v : value)
| ArgState (s : ConnectionState)
| ArgError.

Inductive event :=
| Stdout (line : str)
| Log (lv : level) (msg : list fragment).

(** *** Exceptions and results *)

Inductive exn :=
| KeyError (k : str)
| TypeError
| ValueError
| FacadeError (e : value).

Inductive result (A : Type) :=
| Ok (a : A)
| Raise (e : exn).
Arguments Ok {A} a.
Arguments Raise {A} e.

(** *** The connection facade

    [modules.connection.Connection] is an external collaborator: its
    operations change the object and may fail. *)

Class Connection (C : Type) := {
  send : C -> value -> C * result unit;
  create_subscriber_offer : C -> value -> C * result value;
  handle_subscriber_answer : C -> value -> C * result unit;
  stop_subconnection : C -> value -> C * result unit;
  set_muted : C -> value -> value -> C * result unit;
}.

(** [sys.stdin.readline()]: the text up to and including the first
    newline; at the end of the input, what is left, possibly nothing. *)
Fixpoint readline (input : str) : str * str :=
  match input with
  | [] => ([], [])
  | c :: r =>
      if c =? 10 then ([10], r)
      else let (l, r') := readline r in (c :: l, r')
  end.

(** [msg[key]] *)
Definition subscript (msg : value) (key : str) : result value :=
  match msg with
  | VDict kvs =>
      match dict_get kvs key with
      | Some v => Ok v
      | None => Raise (KeyError key)
      end
  | _ => Raise TypeError
  end.

(** [video, audio = data] *)
Definition unpack2 (data : value) : result (value * value) :=
  match data with
  | VList [a; b] => Ok (a, b)
  | VStr [a; b] => Ok (VStr [a], VStr [b])
  | VDict [(k1, _); (k2, _)] => Ok (VStr k1, VStr k2)
  | VList _ | VStr _ | VDict _ => Raise ValueError
  | VNone | VBool _ | VInt _ | VFloat _ => Raise TypeError
  end.

(** [command == "..."] for a literal of the source. *)
Definition is_command (command : value) (name : string) : bool :=
  match command with
  | VStr s => str_eqb s (lit name)
  | _ => false
  end.

Definition terminal (s : ConnectionState) : bool :=
  match s with
  | CLOSED | FAILED => true
  | _ => false
  end.

(** A unit of work of [_tasks]. *)
Inductive task := Pending | Done.

Definition is_done (t : task) : bool :=
  match t with Done => true | Pending => false end.

Section WithConnection.

Context {C : Type} `{Connection C}.
Variable state_value : ConnectionState -> value.

(** The attributes of a [ConnectionRunner].  The two [async with
    self._lock] blocks hold no suspension point: the lock is free
    whenever one of them is entered, and each runs as one piece. *)
Record ConnectionRunner := {
  _connection : option C;
  _running : bool;
  _stopped_event : bool;
  _tasks : list task;
}.

Definition set_connection (c : option C) (r : ConnectionRunner) :=
  {| _connection := c; _running := _running r;
     _stopped_event := _stopped_event r; _tasks := _tasks r |}.
Definition set_running (b : bool) (r : ConnectionRunner) :=
  {| _connection := _connection r; _running := b;
     _stopped_event := _stopped_event r; _tasks := _tasks r |}.
Definition set_stopped_event (r : ConnectionRunner) :=
  {| _connection := _connection r; _running := _running r;
     _stopped_event := true; _tasks := _tasks r |}.
Definition set_tasks (ts : list task) (r : ConnectionRunner) :=
  {| _connection := _connection r; _running := _running r;
     _stopped_event := _stopped_event r; _tasks := ts |}.

(** [__init__] *)
Definition init : ConnectionRunner :=
  {| _connection := None; _running := false;
     _stopped_event := false; _tasks := [] |}.

(** Code of the class: it reads and writes the attributes, emits events
    in order and may raise. *)
Definition M (A : Type) : Type :=
  ConnectionRunner -> result A * ConnectionRunner * list event.

Definition ret {A} (a : A) : M A := fun r => (Ok a, r, []).

Definition bind {A B} (m : M A) (f : A -> M B) : M B :=
  fun r =>
    match m r with
    | (Ok a, r1, t1) =>
        match f a r1 with
        | (x, r2, t2) => (x, r2, t1 ++ t2)
        end
    | (Raise e, r1, t1) => (Raise e, r1, t1)
    end.

Notation "x <~ m ; k" := (bind m (fun x => k))
  (at level 20, m at level 100, k at level 200, only parsing).
Notation "m ;;; k" := (bind m (fun _ => k))
  (at level 100, k at level 200, only parsing, right associativity).

Definition lift {A} (x : result A) : M A := fun r => (x, r, []).
Definition emit (e : event) : M unit := fun r => (Ok tt, r, [e]).
Definition logger (lv : level) (msg : list fragment) : M unit := emit (Log lv msg).
Definition get {A} (f : ConnectionRunner -> A) : M A := fun r => (Ok (f r), r, []).
Definition modify (f : ConnectionRunner -> ConnectionRunner) : M unit :=
  fun r => (Ok tt, f r, []).

(** An operation of the facade on the connection [c] the caller found in
    [self._connection]. *)
Definition facade {A} (op : C -> C * result A) (c : C) : M A :=
  fun r => let (c', x) := op c in (x, set_connection (Some c') r, []).

(** The line [_send_command] prints. *)
Definition encode (command : str) (data : value) : str :=
  dumps (VDict [(lit "command", VStr command); (lit "data", data)]) ++ [10].

Definition _send_command (command : string) (data : value) : M unit :=
  emit (Stdout (encode (lit command) data)).

(** [_handle_message]; [now] is what [time.time()] returns. *)
Definition _handle_message (now : str) (msg : value) : M unit :=
  data <~ lift (subscript msg (lit "data"));
  command <~ lift (subscript msg (lit "command"));
  connection <~ get _connection;
  match connection with
  | None =>
      logger WARNING [Txt "Failed to handle "; Arg command;
                      Txt ", connection is None. Data: "; Arg data]
  | Some c =>
      if is_command command "PING" then
        original <~ lift (subscript msg (lit "data"));
        _send_command "PONG"
          (VDict [(lit "original", original);
                  (lit "subprocess_time", VFloat now)])
      else if is_command command "SEND" then
        facade (fun c => send c data) c
      else if is_command command "CREATE_OFFER" then
        offer <~ facade (fun c => create_subscriber_offer c data) c;
        _send_command "SUBSCRIBER_OFFER" offer
      else if is_command command "HANDLE_ANSWER" then
        facade (fun c => handle_subscriber_answer c data) c
      else if is_command command "STOP_SUBCONNECTION" then
        facade (fun c => stop_subconnection c data) c
      else if is_command command "SET_MUTED" then
        va <~ lift (unpack2 data);
        facade (fun c => set_muted c (fst va) (snd va)) c
      else
        logger ERROR [Txt "Unrecognized command from main process: "; Arg command]
  end.

(** [stop] up to [asyncio.gather]: [true] when the call goes on at once
    (nothing to gather), [false] when it is suspended in [gather]. *)
Definition stop_enter : M bool :=
  logger DEBUG [Txt "ConnectionRunner Stopping"] ;;;
  modify (set_running false) ;;;
  tasks <~ get _tasks;
  ret (match tasks with [] => true | _ => false end).

(** [stop] after [asyncio.gather]. *)
Definition stop_leave : M unit :=
  modify set_stopped_event ;;;
  logger DEBUG [Txt "Stop complete"].

(** [_handle_state_change] up to the end, or up to the [gather] of the
    [stop] it awaits: [false] when it is left suspended there. *)
Definition _handle_state_change (state : ConnectionState) : M bool :=
  _send_command "STATE_CHANGE" (state_value state) ;;;
  if terminal state then
    logger DEBUG [Txt "Stopping, because state is "; ArgState state] ;;;
    go_on <~ stop_enter;
    if go_on then stop_leave ;;; ret true else ret false
  else ret true.

(** [_relay_api_message] *)
Definition _relay_api_message (message : value) : M unit :=
  _send_command "API" message.

(** Where [_listen_for_messages] is after what it did with a line. *)
Inductive pump_next := Continue | Return.

(** The test of the [while] and the test of [_running] before the next
    [_read]. *)
Definition loop_test (msg : str) : M pump_next :=
  if str_eqb msg (lit "q") then ret Return
  else
    running <~ get _running;
    if running then ret Continue else ret Return.

(** The body of the loop from the line [_read] returned to the end of the
    iteration, and the tests before the next [_read]. *)
Definition after_read (now : str) (msg : str) : M pump_next :=
  match loads msg with
  | None =>
      logger ERROR [Txt "Failed to parse message from main process: "; ArgError] ;;;
      loop_test msg
  | Some parsed =>
      _handle_message now parsed ;;;
      loop_test msg
  end.

(** *** The worker as a machine

    One step is the code that runs between two suspension points.  The
    suspension points are the [await] of [connection_factory], the
    [await] of [_read] and the [await] of [gather]; the operations of the
    facade are taken as one piece. *)

Inductive pc :=
| Created                (* after [__init__] *)
| Connecting             (* [run] awaits [connection_factory] *)
| Reading                (* [_listen_for_messages] awaits [_read] *)
| Returned               (* [run] returned *)
| Raised (e : exn).      (* an exception left [run] *)

Record world := {
  runner : ConnectionRunner;
  pump : pc;
  stdin : str;             (* the input not read yet *)
  gathering : nat;         (* calls of [stop] suspended in [gather] *)
  output : list event;     (* what was emitted so far, oldest first *)
}.

Inductive label :=
| CallRun
| FactoryDone (c : C) (sdp type : value)
| FactoryFailed (e : value)
| ReadDone (now : str)
| CallStop
| GatherDone
| TaskDone (i : nat)
| StateChange (s : ConnectionState)
| ApiMessage (m : value).

Definition start (input : str) : world :=
  {| runner := init; pump := Created; stdin := input;
     gathering := 0%nat; output := [] |}.

(** Runs a piece of code of the class in a world. *)
Definition exec {A} (m : M A) (w : world) : result A * world :=
  match m (runner w) with
  | (x, r, t) =>
      (x, {| runner := r; pump := pump w; stdin := stdin w;
             gathering := gathering w; output := output w ++ t |})
  end.

Definition set_pump (p : pc) (w : world) : world :=
  {| runner := runner w; pump := p; stdin := stdin w;
     gathering := gathering w; output := output w |}.
Definition set_stdin (s : str) (w : world) : world :=
  {| runner := runner w; pump := pump w; stdin := s;
     gathering := gathering w; output := output w |}.
Definition set_gathering (n : nat) (w : world) : world :=
  {| runner := runner w; pump := pump w; stdin := stdin w;
     gathering := n; output := output w |}.

(** The end of [run] once [_listen_for_messages] is left. *)
Definition pump_outcome (x : result pump_next) (w : world) : world :=
  match x with
  | Ok Continue => set_pump Reading w
  | Ok Return =>
      set_pump Returned
        (snd (exec (logger DEBUG [Txt "ConnectionRunner exiting"]) w))
  | Raise e => set_pump (Raised e) w
  end.

Definition all_done (ts : list task) : bool := forallb is_done ts.

Fixpoint finish (i : nat) (ts : list task) : list task :=
  match ts, i with
  | [], _ => []
  | _ :: ts', O => Done :: ts'
  | t :: ts', S i' => t :: finish i' ts'
  end.

(** One step; [None] when the step cannot happen in this world. *)
Definition step (l : label) (w : world) : option world :=
  match l with
  | CallRun =>
      match pump w with
      | Created =>
          Some (set_pump Connecting (snd (exec (modify (set_running true)) w)))
      | _ => None
      end
  | FactoryDone c sdp type =>
      match pump w with
      | Connecting =>
          let (x, w') :=
            exec (modify (set_connection (Some c)) ;;;
                  _send_command "SET_LOCAL_DESCRIPTION"
                    (VDict [(lit "sdp", sdp); (lit "type", type)]) ;;;
                  logger DEBUG [Txt "Listening for messages from main process"] ;;;
                  loop_test []) w in
          Some (pump_outcome x w')
      | _ => None
      end
  | FactoryFailed e =>
      match pump w with
      | Connecting => Some (set_pump (Raised (FacadeError e)) w)
      | _ => None
      end
  | ReadDone now =>
      match pump w with
      | Reading =>
          let (msg, rest) := readline (stdin w) in
          let (x, w') := exec (after_read now msg) (set_stdin rest w) in
          Some (pump_outcome x w')
      | _ => None
      end
  | CallStop =>
      match exec stop_enter w with
      | (Ok true, w') => Some (snd (exec stop_leave w'))
      | (_, w') => Some (set_gathering (S (gathering w')) w')
      end
  | GatherDone =>
      match gathering w with
      | S n =>
          if all_done (_tasks (runner w)) then
            Some (snd (exec stop_leave (set_gathering n w)))
          else None
      | O => None
      end
  | TaskDone i =>
      Some (snd (exec (modify (fun r => set_tasks (finish i (_tasks r)) r)) w))
  | StateChange s =>
      match _connection (runner w) with
      | Some _ =>
          match exec (_handle_state_change s) w with
          | (Ok false, w') => Some (set_gathering (S (gathering w')) w')
          | (_, w') => Some w'
          end
      | None => None
      end
  | ApiMessage m =>
      match _connection (runner w) with
      | Some _ => Some (snd (exec (_relay_api_message m) w))
      | None => None
      end
  end.

(** A run: the steps one after the other. *)
Fixpoint steps (ls : list label) (w : world) : option world :=
  match ls with
  | [] => Some w
  | l :: ls' =>
      match step l w with
      | Some w' => steps ls' w'
      | None => None
      end
  end.

(** The worlds a run goes through, the first one included. *)
Fixpoint history (ls : list label) (w : world) : list world :=
  w :: match ls with
       | [] => []
       | l :: ls' =>
           match step l w with
           | Some w' => history ls' w'
           | None => []
           end
       end.

(** *** Observing a run *)

Definition running (w : world) : bool := _running (runner w).
Definition stopped (w : world) : bool := _stopped_event (runner w).

(** How often [f] goes from [true] to [false] along the worlds [h]. *)
Fixpoint falls (f : world -> bool) (h : list world) : nat :=
  match h with
  | w1 :: h' =>
      match h' with
      | w2 :: _ => (if f w1 && negb (f w2) then 1 else 0) + falls f h'
      | [] => 0
      end
  | [] => 0
  end%nat.


(** The lines a run takes from [_read]. *)
Definition is_read (l : label) : bool :=
  match l with ReadDone _ => true | _ => false end.

Definition reads (ls : list label) : nat := length (List.filter is_read ls).


End WithConnection.

(** The records [stop] leaves when it is entered and when it is left. *)
Definition is_stop_call (e : event) : bool :=
  match e with
  | Log DEBUG [Txt s] => String.eqb s "ConnectionRunner Stopping"
  | _ => false
  end.

Definition is_stop_complete (e : event) : bool :=
  match e with
  | Log DEBUG [Txt s] => String.eqb s "Stop complete"
  | _ => false
  end.

Definition stop_calls (t : list event) : nat := length (List.filter is_stop_call t).
Definition stop_completions (t : list event) : nat :=
  length (List.filter is_stop_complete t).

Definition is_debug (e : event) : bool :=
  match e with
  | Log DEBUG _ => true
  | _ => false
  end.

Section Frames.

Context {C : Type}.

(** The attributes [stop] works with are the same in [r] and [r']. *)
Definition same_flags (r r' : @ConnectionRunner C) : Prop :=
  _running r' = _running r
  /\ _stopped_event r' = _stopped_event r
  /\ _tasks r' = _tasks r.

(** Code that leaves those attributes alone and writes none of the
    records of [stop]. *)
Definition quiet {A} (m : @M C A) : Prop :=
  forall r x r' t, m r = (x, r', t) ->
    same_flags r r' /\ stop_calls t = 0%nat /\ stop_completions t = 0%nat.

End Frames.

Definition is_number (v : value) : bool :=
  match v with
  | VInt _ | VFloat _ => true
  | _ => false
  end.

(** *** A facade for the examples

    It accepts every operation; a subscriber offer is its options under
    the key [offer]. *)

#[export] Instance accepting : Connection unit := {|
  send := fun c _ => (c, Ok tt);
  create_subscriber_offer := fun c d => (c, Ok (VDict [(lit "offer", d)]));
  handle_subscriber_answer := fun c _ => (c, Ok tt);
  stop_subconnection := fun c _ => (c, Ok tt);
  set_muted := fun c _ _ => (c, Ok tt);
|}.

Definition state_name (s : ConnectionState) : value :=
  VStr (lit match s with
            | NEW => "NEW"
            | CONNECTING => "CONNECTING"
            | CONNECTED => "CONNECTED"
            | CLOSED => "CLOSED"
            | FAILED => "FAILED"
            end).

(** A runner after [run] reached its loop, with the facade above and the
    units of work [ts]. *)
Definition serving (ts : list task) (input : str) : @world unit :=
  {| runner := {| _connection := Some tt; _running := true;
                  _stopped_event := false; _tasks := ts |};
     pump := Reading; stdin := input; gathering := 0%nat; output := [] |}.

(** The line a peer writes for a command. *)
Definition line_of (command : string) (data : value) : str :=
  encode (lit command) data.

(** *** More to observe *)

(** The commands [_handle_message] has a case for. *)
Definition known_command (command : value) : bool :=
  is_command command "PING" || is_command command "SEND"
  || is_command command "CREATE_OFFER" || is_command command "HANDLE_ANSWER"
  || is_command command "STOP_SUBCONNECTION" || is_command command "SET_MUTED".

Definition is_warning (e : event) : bool :=
  match e with
  | Log WARNING _ => true
  | _ => false
  end.

(** The record the pump writes for a line [json.loads] rejects. *)
Definition parse_failure : event :=
  Log ERROR [Txt "Failed to parse message from main process: "; ArgError].

End Runner.

(** ** The session manager *)

Module Sessions.

(** [custom_types.session.SessionDict] and its participants: the fields
    [create_session] reads, and the rest of the dictionary. *)
Record ParticipantDict := {
  participant_id : str;
  participant_fields : value;
}.

Record SessionDict := {
  id : str;
  participants : list ParticipantDict;
  end_time : Z;
  start_time : Z;
  fields : value;
}.

Definition with_id (i : str) (d : SessionDict) : SessionDict :=
  {| id := i; participants := participants d; end_time := end_time d;
     start_time := start_time d; fields := fields d |}.

(** [modules.exceptions.ErrorDictException].  The descriptions are the
    texts of the source without their quotation marks. *)
Record ErrorDictException := {
  code : Z;
  type : string;
  description : string;
}.

Inductive outcome (A : Type) :=
| Return (a : A)
| Raises (e : ErrorDictException).
Arguments Return {A} a.
Arguments Raises {A} e.

(** A record of [self._logger], as in the runner. *)
Definition log_record := Runner.event.
Definition log (lv : Runner.level) (msg : list Runner.fragment) : log_record :=
  Runner.Log lv msg.
Definition text (s : string) : Runner.fragment := Runner.Txt s.
Definition arg (s : str) : Runner.fragment := Runner.Arg (VStr s).

Section WithSessionData.

(** [modules.data.SessionData] and [modules.util.generate_unique_id] are
    not among the sources: the class, its constructor (which may raise
    an [ErrorDictException]), [asdict], [__str__] and the generator are
    parameters. *)
Variable SessionData : Type.
Variable new_SessionData : SessionDict -> outcome SessionData.
Variable asdict : SessionData -> SessionDict.
Variable str_of : SessionData -> str.
Variable generate_unique_id : list str -> str.

(** The manager: the sessions in memory and the files of the session
    directory, by name. *)
Record SessionManager := {
  _sessions : gmap str SessionData;
  files : gmap str SessionDict;
}.

Definition MS (A : Type) : Type :=
  SessionManager -> outcome A * SessionManager * list log_record.

(** [get_session] *)
Definition get_session (i : str) (m : SessionManager) : option SessionData :=
  _sessions m !! i.

(** [_generate_unique_session_id]; [list(self._sessions)] is the list of
    the keys. *)
Definition _generate_unique_session_id (m : SessionManager) : str :=
  generate_unique_id (map fst (map_to_list (_sessions m))).

(** [_write] *)
Definition _write (d : SessionDict) (m : SessionManager)
    : SessionManager * list log_record :=
  if str_eqb (id d) [] then
    (m, [log Runner.ERROR [text "Cannot save session without ID"]])
  else
    ({| _sessions := _sessions m;
        files := <[id d ++ lit ".json" := d]> (files m) |}, []).

(** [_delete_file] *)
Definition _delete_file (filename : str) (m : SessionManager)
    : SessionManager * list log_record :=
  match files m !! filename with
  | Some _ =>
      ({| _sessions := _sessions m; files := delete filename (files m) |}, [])
  | None =>
      (m, [log Runner.WARNING
             [text "Cant delete file, file not found. Path: "; arg filename]])
  end.

Definition invalid_request (text : string) : ErrorDictException :=
  {| code := 400; type := "INVALID_REQUEST"; description := text |}.

(** [create_session] *)
Definition create_session (session_dict : SessionDict) : MS SessionData :=
  fun m =>
    if negb (str_eqb (id session_dict) []) then
      (Raises (invalid_request
         "Session id must initially be set to an empty string as default value."),
       m, [])
    else if existsb (fun p => negb (str_eqb (participant_id p) []))
              (participants session_dict) then
      (Raises (invalid_request
         "Participant id must initially be set to an empty string as default value."),
       m, [])
    else if negb (end_time session_dict =? 0)%Z then
      (Raises (invalid_request
         "end_time must initially be set to the default value 0."), m, [])
    else if negb (start_time session_dict =? 0)%Z then
      (Raises (invalid_request
         "start_time must initially be set to the default value 0."), m, [])
    else
      let session_id := _generate_unique_session_id m in
      let session_dict := with_id session_id session_dict in
      match new_SessionData session_dict with
      | Raises e => (Raises e, m, [])
      | Return session =>
          let m1 := {| _sessions := <[session_id := session]> (_sessions m);
                       files := files m |} in
          let (m2, t) := _write (asdict session) m1 in
          (Return session, m2,
           log Runner.INFO [text "New session created: "; arg (str_of session)]
             :: t)
      end.

(** [delete_session] *)
Definition delete_session (i : str) : MS bool :=
  fun m =>
    match _sessions m !! i with
    | None =>
        (Raises {| code := 404; type := "INVALID_REQUEST";
                   description := "No session found for the given ID." |},
         m,
         [log Runner.WARNING
            [text "[SessionManager] Cannot delete session, no session with this ID: ";
             arg i; text " found"]])
    | Some _ =>
        let (m1, t) := _delete_file (i ++ lit ".json") m in
        let popped := _sessions m1 !! i in
        (Return (bool_decide (popped <> None)),
         {| _sessions := delete i (_sessions m1); files := files m1 |},
         log Runner.INFO [text "Deleting session with ID: "; arg i] :: t)
    end.

(** [get_session_list]: [list(self._sessions.values())].  The map of the
    model keeps no insertion order; the list is the values in the order
    of the map. *)
Definition get_session_list (m : SessionManager) : list SessionData :=
  map snd (map_to_list (_sessions m)).

(** [get_session_dict_list] *)
Definition get_session_dict_list (m : SessionManager) : list SessionDict :=
  map asdict (get_session_list m).

(** [_handle_session_update]; [None] is Python's [None]. *)
Definition _handle_session_update (session_id : option str) (m : SessionManager)
    : SessionManager * list log_record :=
  match session_id with
  | None =>
      (m, [log Runner.ERROR [text "Cannot handle session update without ID"]])
  | Some i =>
      match _sessions m !! i with
      | None =>
          (m, [log Runner.ERROR
                 [text "Cannot handle session update for unknown session ID: "; arg i];
               log Runner.DEBUG
                 [text "Known sessions: ";
                  Runner.Arg (VList (map VStr (map fst (map_to_list (_sessions m)))))]])
      | Some session =>
          let (m', t) := _write (asdict session) m in
          (m', log Runner.DEBUG [text "Handle session update: "; arg i] :: t)
      end
  end.

(** *** Loading the session directory

    [custom_types.session.is_valid_session] is not among the sources and
    is a parameter; so is what [os.listdir] returns for the session
    directory, names of sub-directories included, in the order of the
    operating system.  A file holds the dictionary [json.load] reads
    from it. *)
Variable is_valid_session : SessionDict -> bool.
Variable listdir : list str.

(** [_get_filenames]: [isfile] holds for the names the drive has a file
    for. *)
Definition _get_filenames (m : SessionManager) : list str :=
  List.filter (fun filename => bool_decide (is_Some (files m !! filename))) listdir.

(** What leaves [_read_files_from_drive]: the [ErrorDictException] of
    [create_session], or the [FileNotFoundError] of [open]. *)
Inductive failure :=
| Rejected (e : ErrorDictException)
| FileNotFoundError (filename : str).

(** [_read] *)
Definition _read (filename : str) (m : SessionManager) : option SessionDict :=
  files m !! filename.

(** The body of the loop over the file names, after [_read] returned:
    the manager, the dictionaries without id met so far, and the
    records. *)
Definition load_file (file : str) (session_dict : SessionDict)
    (m : SessionManager) (missing : list SessionDict)
    : SessionManager * list SessionDict * list log_record :=
  if negb (is_valid_session session_dict) then
    (m, missing,
     [log Runner.ERROR [text "Invalid session file: "; arg file;
                        text ". Ignoring file"]])
  else if str_eqb (id session_dict) [] then
    (m, missing ++ [session_dict], [])
  else
    match _sessions m !! id session_dict with
    | Some _ =>
        (m, missing,
         [log Runner.ERROR [text "Session ID duplicate: "; arg (id session_dict);
                            text ". Ignoring file: "; arg file]])
    | None =>
        match new_SessionData session_dict with
        | Raises _ =>
            (m, missing,
             [log Runner.ERROR [text "Participant ID duplicate in: "; arg file;
                                text "."]])
        | Return session_obj =>
            ({| _sessions := <[id session_dict := session_obj]> (_sessions m);
                files := files m |}, missing, [])
        end
    end.

(** The first loop of [_read_files_from_drive]. *)
Fixpoint load_files (filenames : list str) (m : SessionManager)
    (missing : list SessionDict)
    : option failure * SessionManager * list SessionDict * list log_record :=
  match filenames with
  | [] => (None, m, missing, [])
  | file :: rest =>
      match _read file m with
      | None => (Some (FileNotFoundError file), m, missing, [])
      | Some session_dict =>
          let '(m1, missing1, t1) := load_file file session_dict m missing in
          let '(x, m2, missing2, t2) := load_files rest m1 missing1 in
          (x, m2, missing2, t1 ++ t2)
      end
  end.

(** The second loop: [create_session] for the dictionaries without id. *)
Fixpoint create_missing (ds : list SessionDict) (m : SessionManager)
    : option failure * SessionManager * list log_record :=
  match ds with
  | [] => (None, m, [])
  | session_dict :: rest =>
      match create_session session_dict m with
      | (Raises e, m1, t1) => (Some (Rejected e), m1, t1)
      | (Return _, m1, t1) =>
          let '(x, m2, t2) := create_missing rest m1 in
          (x, m2, t1 ++ t2)
      end
  end.

(** [session.get("title")] *)
Definition title (d : SessionDict) : value :=
  match fields d with
  | VDict kvs =>
      match dict_get kvs (lit "title") with
      | Some v => v
      | None => VNone
      end
  | _ => VNone
  end.

(** [_read_files_from_drive] *)
Definition _read_files_from_drive (m : SessionManager)
    : option failure * SessionManager * list log_record :=
  let filenames := _get_filenames m in
  let found :=
    log Runner.DEBUG
      [text "Found "; Runner.Arg (VInt (Z.of_nat (length filenames)));
       text " files: "; Runner.Arg (VList (map VStr filenames))] in
  match load_files filenames m [] with
  | (Some e, m1, _, t1) => (Some e, m1, found :: t1)
  | (None, m1, sessions_with_missing_ids, t1) =>
      let generating :=
        match sessions_with_missing_ids with
        | [] => []
        | _ => [log Runner.DEBUG
                  [text "Generating ids for: ";
                   Runner.Arg (VList (map title sessions_with_missing_ids))]]
        end in
      let '(x, m2, t2) := create_missing sessions_with_missing_ids m1 in
      (x, m2, found :: t1 ++ generating ++ t2)
  end.

(** [__init__] on a session directory that holds [drive]. *)
Definition new_SessionManager (drive : gmap str SessionDict)
    : option failure * SessionManager * list log_record :=
  let '(x, m, t) :=
    _read_files_from_drive {| _sessions := empty; files := drive |} in
  (x, m, log Runner.DEBUG [text "Initiating SessionManager"] :: t).

(** *** What the first loop is meant to load

    The file a session id is loaded from: the first one, in the order
    of the names, that is valid, holds this id and is accepted by the
    constructor of [SessionData]. *)
Definition loadable (i : str) (d : SessionDict) : option SessionData :=
  if is_valid_session d && str_eqb (id d) i then
    match new_SessionData d with
    | Return s => Some s
    | Raises _ => None
    end
  else None.

Fixpoint first_loadable (i : str) (ds : list SessionDict) : option SessionData :=
  match ds with
  | [] => None
  | d :: rest =>
      match loadable i d with
      | Some s => Some s
      | None => first_loadable i rest
      end
  end.

End WithSessionData.

(** *** A model of the parameters for the examples

    A session object is its dictionary; the generator returns a string
    longer than every id it is given. *)

Definition plain_new (d : SessionDict) : outcome SessionDict := Return d.

Definition longer_id (ids : list str) : str :=
  repeat 115 (S (list_max (List.map (@length N) ids))).

Definition empty_manager : SessionManager SessionDict :=
  {| _sessions := empty; files := empty |}.

Definition blank_session : SessionDict :=
  {| id := []; end_time := 0; start_time := 0; fields := VNone;
     participants :=
       [{| participant_id := []; participant_fields := VNone |};
        {| participant_id := []; participant_fields := VNone |}] |}.

(** A drive for the examples: session files by name, a validity test
    (a session is valid when its start time is not negative), and the
    names of a directory, one of them a sub-directory. *)

Definition stored (i : str) (n : Z) : SessionDict :=
  {| id := i; participants := []; end_time := 0; start_time := n; fields := VNone |}.

Definition started (d : SessionDict) : bool := (0 <=? start_time d)%Z.

Definition some_names : list str :=
  [lit "b.json"; lit "sub"; lit "a.json"; lit "c.json"].

Definition some_drive : gmap str SessionDict :=
  <[lit "a.json" := stored (lit "x") 1]>
    (<[lit "b.json" := stored (lit "x") 2]>
       (<[lit "c.json" := stored (lit "y") (-1)]> empty)).

Definition drive_with_blank : gmap str SessionDict :=
  <[lit "a.json" := stored [] 7]> (<[lit "b.json" := stored (lit "x") 2]> empty).

End Sessions.

(** * Facts

    ** The [json] module: [loads] reads back what [dumps] writes *)

Section JsonFacts.

Ltac lia_div := zify; Z.to_euclidean_division_equations; lia.

Ltac delim_cases Hd :=
  match type of Hd with
  | delimited ?rest =>
      let d := fresh "d" in
      let tl := fresh "tl" in
      destruct rest as [|d tl];
      [ rewrite ?app_nil_r
      | simpl in Hd; destruct Hd as [->|[->|[->| ->]]]; try destruct tl ]
  end.

Lemma span_digits_app s rest :
  delimited rest ->
  span_digits (s ++ rest) = (fst (span_digits s), snd (span_digits s) ++ rest).
Proof.
  intros Hd. induction s as [|c s IH]; simpl.
  - delim_cases Hd; reflexivity.
  - destruct (is_digit c); [|reflexivity].
    rewrite IH. destruct (span_digits s). reflexivity.
Qed.

Lemma span_digits_split s :
  s = fst (span_digits s) ++ snd (span_digits s)
  /\ Forall (fun c => is_digit c = true) (fst (span_digits s)).
Proof.
  induction s as [|c s [IH1 IH2]]; simpl; [split; [reflexivity | constructor]|].
  destruct (is_digit c) eqn:E; simpl.
  - destruct (span_digits s); simpl in *. split; [congruence|]. constructor; assumption.
  - split; [reflexivity | constructor].
Qed.

Lemma lex_unsigned_app s t r rest :
  delimited rest -> lex_unsigned s = Some (t, r) ->
  lex_unsigned (s ++ rest) = Some (t, r ++ rest).
Proof.
  intros Hd. destruct s as [|c s]; [discriminate|]. simpl.
  destruct (c =? 48); [intros [= <- <-]; reflexivity|].
  destruct (is_digit c); [|discriminate].
  rewrite (span_digits_app _ _ Hd). destruct (span_digits s). simpl.
  intros [= <- <-]. reflexivity.
Qed.

Lemma lex_int_app s t r rest :
  delimited rest -> lex_int s = Some (t, r) -> lex_int (s ++ rest) = Some (t, r ++ rest).
Proof.
  intros Hd. destruct s as [|c s]; [discriminate|].
  unfold lex_int. rewrite <- app_comm_cons. destruct (c =? 45).
  - destruct (lex_unsigned s) as [[t' r']|] eqn:E; [|discriminate].
    intros [= <- <-]. rewrite (lex_unsigned_app _ _ _ _ Hd E). reflexivity.
  - rewrite app_comm_cons. apply lex_unsigned_app, Hd.
Qed.

Lemma lex_frac_app s rest :
  delimited rest ->
  lex_frac (s ++ rest) = (fst (lex_frac s), snd (lex_frac s) ++ rest).
Proof.
  intros Hd. destruct s as [|p [|c s]]; simpl.
  - delim_cases Hd; reflexivity.
  - delim_cases Hd; try reflexivity; simpl; rewrite andb_false_r; reflexivity.
  - destruct ((p =? 46) && is_digit c); [|reflexivity].
    rewrite (span_digits_app _ _ Hd). destruct (span_digits s). reflexivity.
Qed.

Lemma lex_exp_sign_app s rest :
  delimited rest ->
  lex_exp_sign (s ++ rest) = (fst (lex_exp_sign s), snd (lex_exp_sign s) ++ rest).
Proof.
  intros Hd. destruct s as [|c s]; simpl.
  - delim_cases Hd; reflexivity.
  - destruct ((c =? 45) || (c =? 43)); reflexivity.
Qed.

Lemma lex_exp_app s rest :
  delimited rest ->
  lex_exp (s ++ rest) = (fst (lex_exp s), snd (lex_exp s) ++ rest).
Proof.
  intros Hd. destruct s as [|e s].
  - simpl. delim_cases Hd; reflexivity.
  - unfold lex_exp. rewrite <- app_comm_cons.
    destruct ((e =? 101) || (e =? 69)); [|reflexivity].
    rewrite (lex_exp_sign_app _ _ Hd). destruct (lex_exp_sign s) as [sg r1]. simpl.
    rewrite (span_digits_app _ _ Hd).
    destruct (span_digits r1) as [[|c ds] r2]; reflexivity.
Qed.

Lemma lex_number_app s v r rest :
  delimited rest -> lex_number s = Some (v, r) ->
  lex_number (s ++ rest) = Some (v, r ++ rest).
Proof.
  intros Hd. unfold lex_number.
  destruct (lex_int s) as [[i r1]|] eqn:Hi; [|discriminate].
  rewrite (lex_int_app _ _ _ _ Hd Hi).
  rewrite (lex_frac_app _ _ Hd). destruct (lex_frac r1) as [f r2]. simpl.
  rewrite (lex_exp_app _ _ Hd). destruct (lex_exp r2) as [e r3]. simpl.
  destruct f, e; intros [= <- <-]; reflexivity.
Qed.

Lemma digit_numchar c : is_digit c = true -> numchar c = true.
Proof. unfold numchar. intros ->. reflexivity. Qed.

Lemma span_digits_numchar s :
  Forall (fun c => numchar c = true) (fst (span_digits s)).
Proof.
  eapply Forall_impl; [apply span_digits_split|]. apply digit_numchar.
Qed.

Lemma lex_unsigned_split s t r :
  lex_unsigned s = Some (t, r) ->
  s = t ++ r /\ Forall (fun c => numchar c = true) t
  /\ exists c t', t = c :: t' /\ is_digit c = true.
Proof.
  destruct s as [|c s]; [discriminate|]. simpl.
  destruct (N.eqb_spec c 48) as [->|Hc].
  - intros [= <- <-]. repeat split; [repeat constructor|]. eexists _, _. split; reflexivity.
  - destruct (is_digit c) eqn:Ed; [|discriminate].
    pose proof (span_digits_split s) as [Hs Hf].
    pose proof (span_digits_numchar s) as Hn.
    destruct (span_digits s) as [ds r']. simpl in *.
    intros [= <- <-]. repeat split.
    + simpl. f_equal. exact Hs.
    + constructor; [apply digit_numchar, Ed | exact Hn].
    + eexists _, _. split; [reflexivity | exact Ed].
Qed.

Lemma lex_int_split s t r :
  lex_int s = Some (t, r) ->
  s = t ++ r /\ Forall (fun c => numchar c = true) t
  /\ exists c t', t = c :: t'
     /\ (is_digit c = true
         \/ c = 45 /\ exists c2 t'', t' = c2 :: t'' /\ is_digit c2 = true).
Proof.
  destruct s as [|c s]; [discriminate|]. unfold lex_int.
  destruct (N.eqb_spec c 45) as [->|Hc].
  - destruct (lex_unsigned s) as [[t' r']|] eqn:E; [|discriminate].
    intros [= <- <-].
    destruct (lex_unsigned_split _ _ _ E) as (-> & Hf & c2 & t'' & -> & Hd).
    repeat split; [constructor; [reflexivity | exact Hf]|].
    eexists _, _. split; [reflexivity|]. right. split; [reflexivity|].
    eexists _, _. split; [reflexivity | exact Hd].
  - intros E. destruct (lex_unsigned_split _ _ _ E) as (-> & Hf & c2 & t'' & -> & Hd).
    repeat split; [exact Hf|]. eexists _, _. split; [reflexivity|]. left. exact Hd.
Qed.

Lemma lex_frac_split s :
  s = fst (lex_frac s) ++ snd (lex_frac s)
  /\ Forall (fun c => numchar c = true) (fst (lex_frac s)).
Proof.
  destruct s as [|p [|c s]]; simpl; try (split; [reflexivity | constructor]).
  destruct (N.eqb_spec p 46) as [->|Hp]; simpl; [|split; [reflexivity | constructor]].
  destruct (is_digit c) eqn:Ed; [|split; [reflexivity | constructor]].
  pose proof (span_digits_split s) as [Hs Hf].
  pose proof (span_digits_numchar s) as Hn.
  destruct (span_digits s) as [ds r']. simpl in *. split; [congruence|].
  constructor; [reflexivity|]. constructor; [apply digit_numchar, Ed | exact Hn].
Qed.

Lemma lex_exp_split s :
  s = fst (lex_exp s) ++ snd (lex_exp s)
  /\ Forall (fun c => numchar c = true) (fst (lex_exp s)).
Proof.
  destruct s as [|e s]; [split; [reflexivity | constructor]|]. unfold lex_exp.
  destruct ((e =? 101) || (e =? 69)) eqn:Ee; [|split; [reflexivity | constructor]].
  assert (He : numchar e = true).
  { unfold numchar. apply orb_true_iff in Ee as [->| ->]; rewrite ?orb_true_r; reflexivity. }
  assert (Hsg : s = fst (lex_exp_sign s) ++ snd (lex_exp_sign s)
          /\ Forall (fun c => numchar c = true) (fst (lex_exp_sign s))).
  { destruct s as [|c s]; [split; [reflexivity | constructor]|]. simpl.
    destruct ((c =? 45) || (c =? 43)) eqn:Ec; [|split; [reflexivity | constructor]].
    split; [reflexivity|]. constructor; [|constructor].
    unfold numchar. apply orb_true_iff in Ec as [->| ->]; rewrite ?orb_true_r; reflexivity. }
  destruct (lex_exp_sign s) as [sg r1]. simpl in Hsg. destruct Hsg as [-> Hsg].
  pose proof (span_digits_split r1) as [Hs Hf].
  pose proof (span_digits_numchar r1) as Hn.
  destruct (span_digits r1) as [[|d ds] r2]; simpl in *;
    [split; [reflexivity | constructor]|].
  split.
  - rewrite Hs, <- app_assoc. reflexivity.
  - constructor; [exact He|]. apply Forall_app. split; assumption.
Qed.

(** What [lex_number] accepts: the text splits into the token and the
    rest; the token is made of the characters of numbers and starts with
    a digit, or with a minus sign and a digit. *)
Lemma lex_number_split s v r :
  lex_number s = Some (v, r) ->
  exists t, s = t ++ r /\ Forall (fun c => numchar c = true) t
    /\ (v = VFloat t \/ v = VInt (int_of_text t))
    /\ exists c t', t = c :: t'
       /\ (is_digit c = true
           \/ c = 45 /\ exists c2 t'', t' = c2 :: t'' /\ is_digit c2 = true).
Proof.
  unfold lex_number.
  destruct (lex_int s) as [[i r1]|] eqn:Hi; [|discriminate].
  destruct (lex_int_split _ _ _ Hi) as (-> & Hfi & c & t' & -> & Hhd). clear Hi.
  pose proof (lex_frac_split r1) as [Hs1 Hf1].
  destruct (lex_frac r1) as [f r2]. cbn [fst snd] in *. subst r1.
  pose proof (lex_exp_split r2) as [Hs2 Hf2].
  destruct (lex_exp r2) as [e r3]. cbn [fst snd] in *. subst r2.
  intros Hv.
  assert (Hr : r = r3 /\ (v = VFloat ((c :: t') ++ f ++ e)
                          \/ v = VInt (int_of_text ((c :: t') ++ f ++ e)))).
  { destruct f, e; inversion Hv; subst; rewrite ?app_nil_r; auto. }
  destruct Hr as [-> Hv']. clear Hv.
  exists ((c :: t') ++ f ++ e). split; [|split; [|split]].
  - rewrite <- !app_assoc. reflexivity.
  - rewrite !Forall_app. auto.
  - exact Hv'.
  - rewrite <- app_comm_cons. eexists _, _. split; [reflexivity|].
    destruct Hhd as [Hd|[-> (c2 & t'' & -> & Hd)]]; [left; exact Hd|].
    right. split; [reflexivity|]. rewrite <- app_comm_cons.
    eexists _, _. split; [reflexivity | exact Hd].
Qed.

Lemma is_digit_range c : is_digit c = true <-> 48 <= c <= 57.
Proof. unfold is_digit. rewrite andb_true_iff, !N.leb_le. reflexivity. Qed.

Ltac lit_compute :=
  repeat match goal with
  | |- context [lit ?s] =>
      let x := eval vm_compute in (lit s) in change (lit s) with x
  end.

Ltac neq_chars :=
  repeat match goal with
  | |- context [N.eqb ?a ?b] =>
      let H := fresh in
      destruct (N.eqb_spec a b) as [H|H]; [exfalso; lia|]; clear H
  end.

Lemma scan_once_number n s c t :
  s = c :: t ->
  (is_digit c = true
   \/ c = 45 /\ exists c2 t'', t = c2 :: t'' /\ is_digit c2 = true) ->
  scan_once (S n) s = lex_number s.
Proof.
  intros -> [Hd|[-> (c2 & t'' & -> & Hd)]]; apply is_digit_range in Hd.
  - cbn [scan_once]. lit_compute. cbn [strip_prefix]. neq_chars. reflexivity.
  - cbn [scan_once]. lit_compute. cbn [strip_prefix]. 
    change (45 =? 34) with false. change (45 =? 123) with false. change (45 =? 91) with false.
    change (110 =? 45) with false. change (116 =? 45) with false. change (102 =? 45) with false.
    change (78 =? 45) with false. change (73 =? 45) with false. change (45 =? 45) with true.
    cbv iota. neq_chars. reflexivity.
Qed.

Lemma uint_of_digits_of_uint d : uint_of_digits (digits_of_uint d) = d.
Proof. induction d; simpl; congruence. Qed.

Lemma digits_of_uint_digits d :
  Forall (fun c => is_digit c = true) (digits_of_uint d).
Proof. induction d; simpl; constructor; auto. Qed.

Lemma span_digits_all s :
  Forall (fun c => is_digit c = true) s -> span_digits s = (s, []).
Proof.
  induction 1 as [|c s Hc _ IH]; simpl; [reflexivity|]. rewrite Hc, IH. reflexivity.
Qed.

Lemma pos_to_uint_head p d : Pos.to_uint p <> Decimal.D0 d.
Proof.
  intros E.
  assert (Hn : Decimal.unorm (Pos.to_uint p) = Pos.to_uint p).
  { rewrite <- (DecimalPos.Unsigned.to_of (Pos.to_uint p)).
    rewrite DecimalPos.Unsigned.of_to. reflexivity. }
  rewrite E, DecimalFacts.unorm_D0 in Hn.
  destruct (Decimal.nzhead d) eqn:Hz;
    [| rewrite DecimalFacts.unorm_nzhead in Hn by congruence;
       exact (DecimalFacts.nzhead_nonzero _ _ Hn) ..].
  assert (H0 : Decimal.unorm d = Decimal.zero) by (apply DecimalFacts.unorm_0; exact Hz).
  rewrite H0 in Hn. inversion Hn; subst.
  exact (DecimalPos.Unsigned.to_uint_nonzero p E).
Qed.

Lemma lex_unsigned_pos p :
  lex_unsigned (digits_of_uint (Pos.to_uint p))
  = Some (digits_of_uint (Pos.to_uint p), []).
Proof.
  pose proof (pos_to_uint_head p) as Hh.
  pose proof (DecimalPos.Unsigned.to_uint_nonnil p) as Hnil.
  destruct (Pos.to_uint p) as [|d|d|d|d|d|d|d|d|d|d];
    [congruence | exfalso; eapply Hh; reflexivity | ..];
    cbn [digits_of_uint lex_unsigned];
    match goal with |- context [?a =? 48] => change (a =? 48) with false end;
    cbv iota;
    match goal with |- context [is_digit ?a] => change (is_digit a) with true end;
    cbv iota;
    rewrite (span_digits_all _ (digits_of_uint_digits d)); reflexivity.
Qed.

Lemma int_of_text_pos p :
  int_of_text (digits_of_uint (Pos.to_uint p)) = Zpos p.
Proof.
  pose proof (pos_to_uint_head p) as Hh.
  pose proof (DecimalPos.Unsigned.to_uint_nonnil p) as Hnil.
  assert (H : Z.of_N (N.of_uint (uint_of_digits (digits_of_uint (Pos.to_uint p)))) = Zpos p).
  { rewrite uint_of_digits_of_uint.
    change (N.of_uint (Pos.to_uint p)) with (Pos.of_uint (Pos.to_uint p)).
    rewrite DecimalPos.Unsigned.of_to. reflexivity. }
  revert H. unfold int_of_text.
  destruct (Pos.to_uint p) as [|d|d|d|d|d|d|d|d|d|d]; [congruence | ..];
    cbn [digits_of_uint];
    match goal with |- context [?a =? 45] => change (a =? 45) with false end;
    cbv iota; auto.
Qed.

Lemma lex_number_int z : lex_number (int_repr z) = Some (VInt z, []).
Proof.
  unfold lex_number. destruct z as [|p|p]; [reflexivity | |].
  - unfold int_repr, lex_int.
    pose proof (lex_unsigned_pos p) as Hu. pose proof (int_of_text_pos p) as Hi.
    pose proof (pos_to_uint_head p) as Hh.
    pose proof (DecimalPos.Unsigned.to_uint_nonnil p) as Hnil.
    destruct (digits_of_uint (Pos.to_uint p)) as [|c t] eqn:E.
    + discriminate.
    + assert (Hc : c <> 45).
      { destruct (Pos.to_uint p); simpl in E; inversion E; lia. }
      apply N.eqb_neq in Hc. rewrite Hc, Hu. cbn [lex_frac lex_exp]. rewrite Hi. reflexivity.
  - unfold int_repr, lex_int. change (45 =? 45) with true. cbv iota.
    rewrite lex_unsigned_pos. cbn [lex_frac lex_exp].
    unfold int_of_text. change (45 =? 45) with true. cbv iota.
    rewrite uint_of_digits_of_uint.
    change (N.of_uint (Pos.to_uint p)) with (Pos.of_uint (Pos.to_uint p)).
    rewrite DecimalPos.Unsigned.of_to. reflexivity.
Qed.

Lemma lor_shiftl_low x y k : y < 2 ^ k -> N.lor (N.shiftl x k) y = x * 2 ^ k + y.
Proof.
  intros Hy.
  assert (Hl : N.land (N.shiftl x k) y = 0).
  { apply N.bits_inj. intros m. rewrite N.land_spec, N.bits_0.
    destruct (N.lt_ge_cases m k) as [Hm|Hm].
    - rewrite N.shiftl_spec_low by exact Hm. reflexivity.
    - replace y with (y mod 2 ^ k) by (apply N.mod_small; exact Hy).
      rewrite N.mod_pow2_bits_high by exact Hm. apply andb_false_r. }
  rewrite <- N.lxor_lor by exact Hl.
  rewrite <- N.add_nocarry_lxor by exact Hl.
  rewrite N.shiftl_mul_pow2. reflexivity.
Qed.

Lemma hex_value_digit d : d < 16 -> hex_value (hex_digit d) = Some d.
Proof.
  intros Hd. unfold hex_value, hex_digit.
  destruct (N.ltb_spec d 10).
  - replace ((48 <=? 48 + d) && (48 + d <=? 57)) with true
      by (symmetry; apply andb_true_iff; split; apply N.leb_le; lia_div).
    f_equal. lia_div.
  - replace ((48 <=? 87 + d) && (87 + d <=? 57)) with false
      by (symmetry; apply andb_false_iff; right; apply N.leb_gt; lia_div).
    replace ((97 <=? 87 + d) && (87 + d <=? 102)) with true
      by (symmetry; apply andb_true_iff; split; apply N.leb_le; lia_div).
    f_equal. lia_div.
Qed.

Lemma decode_hex4_escape n :
  n < 65536 ->
  decode_hex4 (hex_digit (n / 4096)) (hex_digit ((n / 256) mod 16))
    (hex_digit ((n / 16) mod 16)) (hex_digit (n mod 16)) = Some n.
Proof.
  intros Hn. unfold decode_hex4.
  rewrite !hex_value_digit by lia_div. cbv beta iota.
  rewrite !(lor_shiftl_low _ _ 4) by (change (2 ^ 4) with 16; lia_div).
  change (2 ^ 4) with 16. f_equal. lia_div.
Qed.

Lemma scalar_range c :
  scalar c = true <-> c < 1114112 /\ ~ (55296 <= c <= 57343).
Proof.
  unfold scalar. rewrite andb_true_iff, negb_true_iff, andb_false_iff.
  rewrite N.ltb_lt, !N.leb_gt. lia_div.
Qed.

Lemma scanstring_cons_plain c s :
  c <> 34 -> c <> 92 -> 32 <= c ->
  scanstring (c :: s)
  = match scanstring s with Some (t, r') => Some (c :: t, r') | None => None end.
Proof.
  intros H1 H2 H3. cbn [scanstring].
  apply N.eqb_neq in H1, H2. rewrite H1, H2.
  replace (c <? 32) with false by (symmetry; apply N.ltb_ge; exact H3).
  reflexivity.
Qed.

Lemma scanstring_u h1 h2 h3 h4 u s :
  decode_hex4 h1 h2 h3 h4 = Some u -> is_high_surrogate u = false ->
  scanstring (92 :: 117 :: h1 :: h2 :: h3 :: h4 :: s)
  = match scanstring s with Some (t, r') => Some (u :: t, r') | None => None end.
Proof.
  intros Hd Hh. cbn [scanstring].
  change (92 =? 34) with false. change (92 =? 92) with true.
  change (117 =? 117) with true. cbv iota.
  rewrite Hd, Hh. reflexivity.
Qed.

Lemma scanstring_pair h1 h2 h3 h4 l1 l2 l3 l4 u u2 s :
  decode_hex4 h1 h2 h3 h4 = Some u -> is_high_surrogate u = true ->
  decode_hex4 l1 l2 l3 l4 = Some u2 -> is_low_surrogate u2 = true ->
  scanstring (92 :: 117 :: h1 :: h2 :: h3 :: h4 :: 92 :: 117 :: l1 :: l2 :: l3 :: l4 :: s)
  = match scanstring s with
    | Some (t, r') => Some (join_surrogates u u2 :: t, r')
    | None => None
    end.
Proof.
  intros Hd Hh Hd2 Hl.
  change (scanstring (92 :: 117 :: h1 :: h2 :: h3 :: h4 :: 92 :: 117 :: l1 :: l2 :: l3 :: l4 :: s))
    with (match decode_hex4 h1 h2 h3 h4 with
          | None => None
          | Some u =>
              let single :=
                match scanstring (92 :: 117 :: l1 :: l2 :: l3 :: l4 :: s) with
                | Some (t, r') => Some (u :: t, r')
                | None => None
                end in
              if is_high_surrogate u then
                match decode_hex4 l1 l2 l3 l4 with
                | None => None
                | Some u2 =>
                    if is_low_surrogate u2 then
                      match scanstring s with
                      | Some (t, r') => Some (join_surrogates u u2 :: t, r')
                      | None => None
                      end
                    else single
                end
              else single
          end).
  rewrite Hd. cbv zeta. rewrite Hh, Hd2, Hl. reflexivity.
Qed.

Lemma surrogate_pair n :
  n < 1048576 ->
  let h := N.lor 55296 (N.land (N.shiftr n 10) 1023) in
  let l := N.lor 56320 (N.land n 1023) in
  h < 65536 /\ l < 65536
  /\ is_high_surrogate h = true /\ is_low_surrogate l = true
  /\ join_surrogates h l = 65536 + n.
Proof.
  intros Hn.
  assert (Hx : N.land (N.shiftr n 10) 1023 = n / 1024).
  { change 1023 with (N.ones 10). rewrite N.land_ones, N.shiftr_div_pow2.
    change (2 ^ 10) with 1024. apply N.mod_small. lia_div. }
  assert (Hy : N.land n 1023 = n mod 1024).
  { change 1023 with (N.ones 10). rewrite N.land_ones. reflexivity. }
  rewrite Hx, Hy.
  assert (Hh : N.lor 55296 (n / 1024) = 55296 + n / 1024).
  { change 55296 with (N.shiftl 54 10). rewrite lor_shiftl_low; [reflexivity|].
    change (2 ^ 10) with 1024. lia_div. }
  assert (Hl : N.lor 56320 (n mod 1024) = 56320 + n mod 1024).
  { change 56320 with (N.shiftl 55 10). rewrite lor_shiftl_low; [reflexivity|].
    change (2 ^ 10) with 1024. lia_div. }
  cbv zeta. rewrite Hh, Hl.
  unfold is_high_surrogate, is_low_surrogate, join_surrogates.
  assert (Hhm : N.land (55296 + n / 1024) 1023 = n / 1024).
  { change 1023 with (N.ones 10). rewrite N.land_ones. change (2 ^ 10) with 1024. lia_div. }
  assert (Hlm : N.land (56320 + n mod 1024) 1023 = n mod 1024).
  { change 1023 with (N.ones 10). rewrite N.land_ones. change (2 ^ 10) with 1024. lia_div. }
  rewrite Hhm, Hlm, lor_shiftl_low by (change (2 ^ 10) with 1024; lia_div).
  change (2 ^ 10) with 1024.
  repeat split; try lia_div.
  - apply andb_true_iff. split; apply N.leb_le; lia_div.
  - apply andb_true_iff. split; apply N.leb_le; lia_div.
Qed.

Lemma scanstring_escape c s :
  scalar c = true ->
  scanstring (escape_char c ++ s)
  = match scanstring s with Some (t, r') => Some (c :: t, r') | None => None end.
Proof.
  intros Hc. apply scalar_range in Hc as [Hlt Hns]. unfold escape_char.
  destruct (N.eqb_spec c 34) as [->|H34]; [reflexivity|].
  destruct (N.eqb_spec c 92) as [->|H92]; [reflexivity|].
  destruct (N.eqb_spec c 10) as [->|H10]; [reflexivity|].
  destruct (N.eqb_spec c 13) as [->|H13]; [reflexivity|].
  destruct (N.eqb_spec c 9) as [->|H9]; [reflexivity|].
  destruct (N.eqb_spec c 8) as [->|H8]; [reflexivity|].
  destruct (N.eqb_spec c 12) as [->|H12]; [reflexivity|].
  destruct (N.leb_spec 32 c) as [H32|H32]; cbn [andb].
  - destruct (N.leb_spec c 126) as [H126|H126].
    + apply scanstring_cons_plain; assumption.
    + destruct (N.ltb_spec c 65536) as [Hb|Hb].
      * apply scanstring_u; [apply decode_hex4_escape, Hb|].
        unfold is_high_surrogate. apply andb_false_iff.
        rewrite !N.leb_gt. lia_div.
      * destruct (surrogate_pair (c - 65536)) as (Hh & Hl & Hhs & Hls & Hj); [lia_div|].
        cbv zeta. unfold escape_u at 1 2. cbn [app].
        rewrite (scanstring_pair _ _ _ _ _ _ _ _ _ _ _
                   (decode_hex4_escape _ Hh) Hhs (decode_hex4_escape _ Hl) Hls).
        rewrite Hj. replace (65536 + (c - 65536)) with c by lia_div. reflexivity.
  - destruct (N.ltb_spec c 65536) as [Hb|Hb]; [|lia_div].
    apply scanstring_u; [apply decode_hex4_escape, Hb|].
    unfold is_high_surrogate. apply andb_false_iff. rewrite !N.leb_gt. lia_div.
Qed.

Lemma scanstring_encode s rest :
  forallb scalar s = true ->
  scanstring (flat_map escape_char s ++ 34 :: rest) = Some (s, rest).
Proof.
  induction s as [|c s IH]; intros Hs; [reflexivity|].
  cbn [forallb] in Hs. apply andb_true_iff in Hs as [Hc Hs].
  cbn [flat_map]. rewrite <- app_assoc, (scanstring_escape _ _ Hc), (IH Hs).
  reflexivity.
Qed.

Lemma value_start_not_ws c : value_start c = true -> is_ws c = false.
Proof.
  unfold value_start, is_ws, is_digit. intros H.
  destruct (N.eqb_spec c 32) as [->|]; [discriminate|].
  destruct (N.eqb_spec c 9) as [->|]; [discriminate|].
  destruct (N.eqb_spec c 10) as [->|]; [discriminate|].
  destruct (N.eqb_spec c 13) as [->|]; [discriminate|]. reflexivity.
Qed.

Lemma value_start_skip_ws c r :
  value_start c = true -> skip_ws (c :: r) = c :: r.
Proof. intros H. cbn [skip_ws]. rewrite (value_start_not_ws _ H). reflexivity. Qed.

Lemma digit_value_start c : is_digit c = true -> value_start c = true.
Proof. unfold value_start. intros ->. rewrite !orb_true_r. reflexivity. Qed.

Lemma str_eqb_eq a b : str_eqb a b = true <-> a = b.
Proof. unfold str_eqb. apply bool_decide_eq_true. Qed.

Lemma float_literal_lex r :
  is_float_literal r = true -> lex_number r = Some (VFloat r, []).
Proof.
  unfold is_float_literal.
  destruct (lex_number r) as [[[] [|]]|] eqn:E; try discriminate. intros _.
  destruct (lex_number_split _ _ _ E) as (t & Hs & _ & [Hv|Hv] & _); [|discriminate].
  rewrite app_nil_r in Hs. inversion Hv; subst. reflexivity.
Qed.

Lemma dumps_head v :
  well_formed v = true -> exists c r, dumps v = c :: r /\ value_start c = true.
Proof.
  destruct v as [|[]|z|r|s|[|x xs]|[|[k x] kvs]]; intros Hwf;
    try (eexists _, _; split; [reflexivity | reflexivity]).
  - destruct z as [|p|p]; try (eexists _, _; split; reflexivity).
    cbn [dumps int_repr].
    pose proof (digits_of_uint_digits (Pos.to_uint p)) as Hd.
    pose proof (DecimalPos.Unsigned.to_uint_nonnil p) as Hn.
    destruct (Pos.to_uint p); [congruence | ..]; cbn [digits_of_uint] in *;
      eexists _, _; (split; [reflexivity | reflexivity]).
  - cbn [well_formed] in Hwf. unfold is_float_repr in Hwf.
    apply orb_true_iff in Hwf as [Hwf|Hwf]; [apply orb_true_iff in Hwf as [Hwf|Hwf]|].
    + apply float_literal_lex in Hwf.
      destruct (lex_number_split _ _ _ Hwf) as (t & Hs & _ & _ & c & t' & -> & Hh).
      rewrite app_nil_r in Hs. cbn [dumps]. subst r. eexists _, _. split; [reflexivity|].
      destruct Hh as [Hd|[-> _]]; [apply digit_value_start, Hd | reflexivity].
    + apply str_eqb_eq in Hwf. subst r. eexists _, _. split; reflexivity.
    + apply str_eqb_eq in Hwf. subst r. eexists _, _. split; reflexivity.
Qed.

Lemma scan_once_float n r rest :
  is_float_repr r = true -> delimited rest ->
  scan_once (S n) (r ++ rest) = Some (VFloat r, rest).
Proof.
  intros Hwf Hd. unfold is_float_repr in Hwf.
  apply orb_true_iff in Hwf as [Hwf|Hwf]; [apply orb_true_iff in Hwf as [Hwf|Hwf]|].
  - apply float_literal_lex in Hwf.
    destruct (lex_number_split _ _ _ Hwf) as (t & Hs & _ & _ & c & t' & -> & Hh).
    rewrite app_nil_r in Hs. subst r.
    rewrite (scan_once_number n _ c (t' ++ rest)); [|reflexivity|].
    + apply (lex_number_app _ _ _ _ Hd Hwf).
    + destruct Hh as [Hh|[-> (c2 & t'' & -> & Hh)]]; [left; exact Hh|].
      right. split; [reflexivity|]. eexists _, _. split; [reflexivity | exact Hh].
  - apply str_eqb_eq in Hwf. subst r. reflexivity.
  - apply str_eqb_eq in Hwf. subst r. reflexivity.
Qed.

Lemma scan_once_int n z rest :
  delimited rest -> scan_once (S n) (int_repr z ++ rest) = Some (VInt z, rest).
Proof.
  intros Hd. pose proof (lex_number_int z) as Hz.
  destruct (lex_number_split _ _ _ Hz) as (t & Hs & _ & _ & c & t' & -> & Hh).
  rewrite app_nil_r in Hs. rewrite Hs in *.
  rewrite (scan_once_number n _ c (t' ++ rest)); [|reflexivity|].
  - apply (lex_number_app _ _ _ _ Hd Hz).
  - destruct Hh as [Hh|[-> (c2 & t'' & -> & Hh)]]; [left; exact Hh|].
    right. split; [reflexivity|]. eexists _, _. split; [reflexivity | exact Hh].
Qed.

Lemma scan_once_str n s rest :
  forallb scalar s = true ->
  scan_once (S n) (encode_basestring_ascii s ++ rest) = Some (VStr s, rest).
Proof.
  intros Hs. unfold encode_basestring_ascii.
  rewrite <- app_comm_cons, <- app_assoc. cbn [scan_once app].
  change (34 =? 34) with true. cbv iota.
  rewrite (scanstring_encode _ _ Hs). reflexivity.
Qed.

Lemma delimited_join_items d xs rest : delimited (join_items d xs ++ rest).
Proof. destruct xs; cbn; auto. Qed.

Lemma delimited_join_members d kvs rest : delimited (join_members d kvs ++ rest).
Proof. destruct kvs as [|[k x] kvs]; cbn; auto. Qed.

Lemma array_items_last scan (m : nat) s acc v r' :
  scan s = Some (v, 93 :: r') ->
  array_items scan (S m) s acc = Some (rev (v :: acc), r').
Proof. intros H. cbn [array_items]. rewrite H. reflexivity. Qed.

Lemma array_items_more scan (m : nat) s acc v c r' :
  scan s = Some (v, 44 :: 32 :: c :: r') -> value_start c = true ->
  array_items scan (S m) s acc = array_items scan m (c :: r') (v :: acc).
Proof.
  intros H Hc. cbn [array_items]. rewrite H.
  change (skip_ws (44 :: 32 :: c :: r')) with (44 :: 32 :: c :: r').
  change (44 =? 93) with false. change (44 =? 44) with true. cbv iota.
  change (skip_ws (32 :: c :: r')) with (skip_ws (c :: r')).
  rewrite (value_start_skip_ws _ _ Hc). reflexivity.
Qed.

(** The array loop reads back the elements it is given. *)
Lemma array_items_dumps (scan : str -> option (value * str)) xs :
  Forall (fun x => well_formed x = true
            /\ forall rest, delimited rest -> scan (dumps x ++ rest) = Some (x, rest)) xs ->
  forall x, well_formed x = true ->
  (forall rest, delimited rest -> scan (dumps x ++ rest) = Some (x, rest)) ->
  forall (m : nat) acc rest, (length xs < m)%nat ->
  array_items scan m (dumps x ++ join_items dumps xs ++ rest) acc
  = Some (rev acc ++ x :: xs, rest).
Proof.
  induction 1 as [|y ys [Hwy Hy] Hys IH]; intros x Hwx Hx m acc rest Hm.
  - destruct m as [|m]; [cbn in Hm; lia|].
    apply array_items_last. apply Hx. cbn. auto.
  - destruct m as [|m]; [cbn in Hm; lia|].
    destruct (dumps_head y Hwy) as (c & r & Hc & Hst).
    rewrite (array_items_more scan m _ acc x c (r ++ join_items dumps ys ++ rest)).
    + rewrite app_comm_cons, <- Hc.
      rewrite (IH y Hwy Hy m (x :: acc) rest) by (cbn in Hm; lia).
      cbn [rev]. rewrite <- app_assoc. reflexivity.
    + rewrite Hx by apply delimited_join_items.
      cbn [join_items]. rewrite Hc. rewrite <- !app_comm_cons, <- app_assoc.
      reflexivity.
    + exact Hst.
Qed.

Lemma skip_ws_colon s : skip_ws (58 :: s) = 58 :: s.
Proof. reflexivity. Qed.

Lemma skip_ws_space s : skip_ws (32 :: s) = skip_ws s.
Proof. reflexivity. Qed.

Lemma object_items_last scan (m : nat) s0 k c r v r4 acc :
  scanstring s0 = Some (k, 58 :: 32 :: c :: r) -> value_start c = true ->
  scan (c :: r) = Some (v, 125 :: r4) ->
  object_items scan (S m) (34 :: s0) acc = Some (dict_set acc k v, r4).
Proof.
  intros Hk Hc Hv. cbn [object_items]. change (34 =? 34) with true. cbv iota.
  rewrite Hk. cbv beta iota. rewrite skip_ws_colon. cbv beta iota.
  change (58 =? 58) with true. cbv iota.
  rewrite skip_ws_space, (value_start_skip_ws _ _ Hc). rewrite Hv. reflexivity.
Qed.

Lemma object_items_more scan (m : nat) s0 k c r v r4 acc :
  scanstring s0 = Some (k, 58 :: 32 :: c :: r) -> value_start c = true ->
  scan (c :: r) = Some (v, 44 :: 32 :: 34 :: r4) ->
  object_items scan (S m) (34 :: s0) acc
  = object_items scan m (34 :: r4) (dict_set acc k v).
Proof.
  intros Hk Hc Hv. cbn [object_items]. change (34 =? 34) with true. cbv iota.
  rewrite Hk. cbv beta iota. rewrite skip_ws_colon. cbv beta iota.
  change (58 =? 58) with true. cbv iota.
  rewrite skip_ws_space, (value_start_skip_ws _ _ Hc), Hv. reflexivity.
Qed.

Lemma encode_app k s :
  encode_basestring_ascii k ++ s = 34 :: flat_map escape_char k ++ 34 :: s.
Proof.
  unfold encode_basestring_ascii. rewrite <- app_comm_cons, <- app_assoc. reflexivity.
Qed.

(** The object loop stores the members it is given, one after the other. *)
Lemma object_items_dumps (scan : str -> option (value * str)) kvs :
  Forall (fun kv => (forallb scalar (fst kv) = true /\ well_formed (snd kv) = true)
            /\ forall rest, delimited rest ->
                 scan (dumps (snd kv) ++ rest) = Some (snd kv, rest)) kvs ->
  forall k x, forallb scalar k = true -> well_formed x = true ->
  (forall rest, delimited rest -> scan (dumps x ++ rest) = Some (x, rest)) ->
  forall (m : nat) acc rest, (length kvs < m)%nat ->
  object_items scan m
    (encode_basestring_ascii k ++ 58 :: 32 :: dumps x ++ join_members dumps kvs ++ rest) acc
  = Some (fold_left (fun d kv => dict_set d (fst kv) (snd kv)) ((k, x) :: kvs) acc, rest).
Proof.
  induction 1 as [|[k' y] kvs [[Hk' Hwy] Hy] Hkvs IH];
    intros k x Hk Hwx Hx m acc rest Hm.
  - destruct m as [|m]; [cbn in Hm; lia|].
    destruct (dumps_head x Hwx) as (c & r & Hc & Hst).
    rewrite encode_app.
    apply (object_items_last scan m _ k c (r ++ [125] ++ rest)).
    + rewrite (scanstring_encode _ _ Hk), Hc. reflexivity.
    + exact Hst.
    + rewrite app_comm_cons, <- Hc. apply Hx. cbn. auto.
  - destruct m as [|m]; [cbn in Hm; lia|].
    destruct (dumps_head x Hwx) as (c & r & Hc & Hst).
    rewrite encode_app. cbn [snd fst] in *.
    rewrite (object_items_more scan m _ k c
               (r ++ join_members dumps ((k', y) :: kvs) ++ rest) x
               (flat_map escape_char k' ++ 34 :: 58 :: 32 :: dumps y
                  ++ join_members dumps kvs ++ rest)).
    + rewrite <- encode_app.
      rewrite (IH k' y Hk' Hwy Hy m (dict_set acc k x) rest) by (cbn in Hm; lia).
      reflexivity.
    + rewrite (scanstring_encode _ _ Hk), Hc. reflexivity.
    + exact Hst.
    + rewrite app_comm_cons, <- Hc. rewrite Hx by apply delimited_join_members.
      cbn [join_members]. rewrite <- !app_comm_cons, <- !app_assoc, encode_app.
      repeat (rewrite <- app_comm_cons || rewrite <- app_assoc). reflexivity.
Qed.

(** *** Dictionaries with pairwise different keys *)

Lemma keys_unique_NoDup ks : keys_unique ks = true <-> List.NoDup ks.
Proof.
  induction ks as [|k ks IH]; cbn [keys_unique].
  - split; [constructor | reflexivity].
  - rewrite andb_true_iff, negb_true_iff, IH. split.
    + intros [Hk Hks]. constructor; [|exact Hks]. intros Hin.
      assert (existsb (str_eqb k) ks = true); [|congruence].
      apply existsb_exists. exists k. split; [exact Hin | apply str_eqb_eq; reflexivity].
    + intros Hnd. inversion Hnd as [|? ? Hk Hks]; subst. split; [|exact Hks].
      destruct (existsb (str_eqb k) ks) eqn:E; [|reflexivity].
      apply existsb_exists in E as (k' & Hin & Hk'). apply str_eqb_eq in Hk'. subst k'.
      contradiction.
Qed.

Lemma dict_set_fresh {A} (d : list (str * A)) k v :
  ~ In k (List.map fst d) -> dict_set d k v = d ++ [(k, v)].
Proof.
  induction d as [|[k' v'] d IH]; intros Hk; [reflexivity|].
  cbn [dict_set]. destruct (str_eqb k' k) eqn:E.
  - apply str_eqb_eq in E. subst k'. exfalso. apply Hk. left. reflexivity.
  - rewrite IH; [reflexivity|]. intros Hin. apply Hk. right. exact Hin.
Qed.

Lemma fold_dict_set {A} (kvs acc : list (str * A)) :
  List.NoDup (List.map fst (acc ++ kvs)) ->
  fold_left (fun d kv => dict_set d (fst kv) (snd kv)) kvs acc = acc ++ kvs.
Proof.
  revert acc. induction kvs as [|[k v] kvs IH]; intros acc Hnd.
  - rewrite app_nil_r. reflexivity.
  - cbn [fold_left fst snd]. rewrite dict_set_fresh.
    + rewrite IH; rewrite <- app_assoc; [reflexivity | exact Hnd].
    + rewrite List.map_app in Hnd. cbn [List.map fst] in Hnd.
      apply List.NoDup_remove_2 in Hnd. intros Hin. apply Hnd.
      apply in_or_app. left. exact Hin.
Qed.

Lemma dict_of_pairs_unique {A} (kvs : list (str * A)) :
  keys_unique (List.map fst kvs) = true -> dict_of_pairs kvs = kvs.
Proof.
  intros H. apply keys_unique_NoDup in H. unfold dict_of_pairs.
  apply (fold_dict_set kvs []). exact H.
Qed.

(** *** The round trip of [scan_once] *)

Lemma size_pos v : (1 <= size v)%nat.
Proof. destruct v; cbn [size]; lia. Qed.

Lemma length_le_sizes xs : (length xs <= list_sum (List.map size xs))%nat.
Proof.
  induction xs as [|x xs IH]; [cbn; lia|].
  change (S (length xs) <= size x + list_sum (List.map size xs))%nat.
  pose proof (size_pos x). lia.
Qed.

Lemma length_le_member_sizes (kvs : list (str * value)) :
  (length kvs <= list_sum (List.map (fun kv => size (snd kv)) kvs))%nat.
Proof.
  induction kvs as [|kv kvs IH]; [cbn; lia|].
  change (S (length kvs) <= size (snd kv)
            + list_sum (List.map (fun kv => size (snd kv)) kvs))%nat.
  pose proof (size_pos (snd kv)). lia.
Qed.

Lemma scan_once_array (n : nat) c r :
  value_start c = true ->
  scan_once (S n) (91 :: c :: r)
  = match array_items (scan_once n) n (c :: r) [] with
    | Some (xs, r') => Some (VList xs, r')
    | None => None
    end.
Proof.
  intros Hc. cbn [scan_once]. change (91 =? 34) with false.
  change (91 =? 123) with false. change (91 =? 91) with true. cbv iota.
  rewrite (value_start_skip_ws _ _ Hc).
  replace (c =? 93) with false; [reflexivity|].
  symmetry. apply N.eqb_neq. intros ->. discriminate.
Qed.

Lemma scan_once_object (n : nat) r :
  scan_once (S n) (123 :: 34 :: r)
  = match object_items (scan_once n) n (34 :: r) [] with
    | Some (kvs, r') => Some (VDict kvs, r')
    | None => None
    end.
Proof. reflexivity. Qed.

Lemma list_sum_cons (a : nat) l : list_sum (a :: l) = (a + list_sum l)%nat.
Proof. reflexivity. Qed.

Lemma scan_once_dumps v :
  well_formed v = true ->
  forall (n : nat) rest, (size v <= n)%nat -> delimited rest ->
  scan_once n (dumps v ++ rest) = Some (v, rest).
Proof.
  induction v as [|b|z|r|s|xs IH|kvs IH] using value_nested_ind;
    intros Hwf n rest Hn Hd;
    (destruct n as [|n]; [pose proof (size_pos (VNone)); cbn in Hn; lia|]).
  - reflexivity.
  - destruct b; reflexivity.
  - apply scan_once_int, Hd.
  - apply scan_once_float; assumption.
  - apply scan_once_str. exact Hwf.
  - destruct xs as [|x xs]; [reflexivity|].
    cbn [well_formed forallb] in Hwf. apply andb_true_iff in Hwf as [Hwx Hwxs].
    cbn [size List.map] in Hn. rewrite list_sum_cons in Hn.
    inversion IH as [|? ? IHx IHxs]; subst.
    cbn [dumps]. rewrite <- app_comm_cons, <- app_assoc.
    destruct (dumps_head x Hwx) as (c & r & Hc & Hst).
    rewrite Hc, <- app_comm_cons, (scan_once_array _ _ _ Hst).
    rewrite app_comm_cons, <- Hc.
    rewrite (array_items_dumps (scan_once n) xs).
    + reflexivity.
    + clear - IHxs Hwxs Hn. revert Hwxs Hn.
      induction IHxs as [|y ys Hy _ IHys]; intros Hw Hn; constructor.
      * cbn [forallb] in Hw. apply andb_true_iff in Hw as [Hwy _].
        split; [exact Hwy|]. intros rest Hd. apply Hy; [exact Hwy | | exact Hd].
        cbn [List.map] in Hn. rewrite list_sum_cons in Hn. lia.
      * apply IHys.
        -- cbn [forallb] in Hw. apply andb_true_iff in Hw as [_ Hw]. exact Hw.
        -- cbn [List.map] in Hn. rewrite list_sum_cons in Hn. pose proof (size_pos y). lia.
    + exact Hwx.
    + intros rest' Hd'. apply IHx; [exact Hwx | lia | exact Hd'].
    + pose proof (length_le_sizes xs). pose proof (size_pos x). lia.
  - destruct kvs as [|[k x] kvs]; [reflexivity|].
    cbn [well_formed] in Hwf. apply andb_true_iff in Hwf as [Hku Hwf].
    cbn [forallb fst snd] in Hwf.
    apply andb_true_iff in Hwf as [Hkx Hwkvs].
    apply andb_true_iff in Hkx as [Hk Hwx].
    cbn [size List.map snd] in Hn. rewrite list_sum_cons in Hn.
    inversion IH as [|? ? IHx IHkvs]; subst. cbn [snd] in IHx.
    cbn [dumps]. rewrite <- app_comm_cons.
    repeat (rewrite <- app_comm_cons || rewrite <- app_assoc).
    rewrite encode_app, scan_once_object, <- encode_app.
    rewrite (object_items_dumps (scan_once n) kvs).
    + rewrite (fold_dict_set ((k, x) :: kvs) []); [reflexivity|].
      apply keys_unique_NoDup. exact Hku.
    + clear - IHkvs Hwkvs Hn. revert Hwkvs Hn.
      induction IHkvs as [|[k' y] ys Hy _ IHys]; intros Hw Hn; constructor.
      * cbn [forallb fst snd] in Hw. apply andb_true_iff in Hw as [Hwy _].
        apply andb_true_iff in Hwy as [Hk' Hwy]. cbn [fst snd] in *.
        split; [split; assumption|]. intros rest Hd. apply Hy; [exact Hwy | | exact Hd].
        cbn [List.map snd] in Hn. rewrite list_sum_cons in Hn. lia.
      * apply IHys.
        -- cbn [forallb] in Hw. apply andb_true_iff in Hw as [_ Hw]. exact Hw.
        -- cbn [List.map snd] in Hn. rewrite list_sum_cons in Hn. pose proof (size_pos y). lia.
    + exact Hk.
    + exact Hwx.
    + intros rest' Hd'. apply IHx; [exact Hwx | lia | exact Hd'].
    + pose proof (length_le_member_sizes kvs). pose proof (size_pos x). lia.
Qed.

(** *** The printed text is one line of printable ASCII *)









(** *** [loads] after [dumps] *)

Lemma size_le_length v :
  well_formed v = true -> (size v <= length (dumps v))%nat.
Proof.
  induction v as [|b|z|r|s|xs IH|kvs IH] using value_nested_ind; intros Hwf;
    try (destruct (dumps_head _ Hwf) as (c & t & -> & _); cbn [size length]; lia).
  - destruct xs as [|x xs]; [cbn; lia|].
    cbn [well_formed forallb] in Hwf. apply andb_true_iff in Hwf as [Hwx Hwxs].
    inversion IH as [|? ? IHx IHxs]; subst.
    cbn [dumps size List.map]. rewrite list_sum_cons. cbn [length].
    rewrite length_app. specialize (IHx Hwx).
    assert (list_sum (List.map size xs) <= length (join_items dumps xs))%nat; [|lia].
    clear - IHxs Hwxs. revert Hwxs.
    induction IHxs as [|y ys Hy _ IHys]; intros Hw; [cbn; lia|].
    cbn [forallb] in Hw. apply andb_true_iff in Hw as [Hwy Hw].
    cbn [List.map join_items]. rewrite list_sum_cons. cbn [length].
    rewrite length_app. specialize (Hy Hwy). specialize (IHys Hw). lia.
  - destruct kvs as [|[k x] kvs]; [cbn; lia|].
    cbn [well_formed] in Hwf. apply andb_true_iff in Hwf as [_ Hwf].
    cbn [forallb fst snd] in Hwf. apply andb_true_iff in Hwf as [Hkx Hwkvs].
    apply andb_true_iff in Hkx as [_ Hwx].
    inversion IH as [|? ? IHx IHkvs]; subst. cbn [snd] in IHx.
    cbn [dumps size List.map snd]. rewrite list_sum_cons. cbn [length].
    rewrite length_app. cbn [length]. rewrite length_app. specialize (IHx Hwx).
    assert (list_sum (List.map (fun kv => size (snd kv)) kvs)
            <= length (join_members dumps kvs))%nat; [|lia].
    clear - IHkvs Hwkvs. revert Hwkvs.
    induction IHkvs as [|[k' y] ys Hy _ IHys]; intros Hw; [cbn; lia|].
    cbn [forallb fst snd] in Hw. apply andb_true_iff in Hw as [Hwy Hw].
    apply andb_true_iff in Hwy as [_ Hwy]. cbn [snd] in Hy.
    cbn [List.map join_members snd]. rewrite list_sum_cons. cbn [length].
    rewrite length_app. cbn [length]. rewrite length_app.
    specialize (Hy Hwy). specialize (IHys Hw). lia.
Qed.

Lemma loads_dumps_gen v rest :
  well_formed v = true -> rest = [] \/ rest = [10] ->
  loads (dumps v ++ rest) = Some v.
Proof.
  intros Hwf Hrest. unfold loads.
  destruct (dumps_head v Hwf) as (c & t & Hc & Hst).
  assert (Hbom : has_bom (dumps v ++ rest) = false).
  { rewrite Hc. cbn [app has_bom]. apply N.eqb_neq. intros ->. discriminate. }
  rewrite Hbom. cbv zeta.
  assert (Hws : skip_ws (dumps v ++ rest) = dumps v ++ rest).
  { rewrite Hc, <- app_comm_cons. apply value_start_skip_ws, Hst. }
  rewrite Hws, (scan_once_dumps v Hwf).
  - destruct Hrest as [-> | ->]; reflexivity.
  - rewrite length_app. pose proof (size_le_length v Hwf). lia.
  - destruct Hrest as [-> | ->]; cbn; auto.
Qed.

End JsonFacts.

(** ** The wire protocol *)

Import Runner.

Section CodecFacts.


Lemma envelope_well_formed command data :
  forallb scalar command = true -> well_formed data = true ->
  well_formed (VDict [(lit "command", VStr command); (lit "data", data)]) = true.
Proof.
  intros Hc Hd. cbn [well_formed forallb fst snd List.map].
  rewrite Hc, Hd. reflexivity.
Qed.

(** [json.loads] of a line of [_send_command] is the envelope. *)
Lemma loads_encode command data :
  forallb scalar command = true -> well_formed data = true ->
  loads (encode command data)
  = Some (VDict [(lit "command", VStr command); (lit "data", data)]).
Proof.
  intros Hc Hd. unfold encode. apply loads_dumps_gen; [|right; reflexivity].
  apply envelope_well_formed; assumption.
Qed.



End CodecFacts.

(** ** The dispatcher *)

Section DispatcherFacts.

Context {C : Type} `{Connection C}.

(** C6. For every well-formed envelope (a dictionary with a [command] and a
    [data] key) dispatched while [_connection] is [None], the dispatcher
    logs one warning naming the command and its payload; it performs no
    operation of the facade and changes no attribute, prints nothing on
    the outbound channel, and raises no exception. *)
Theorem no_facade_warns_and_drops (now : str) (msg command data : value)
    (r : ConnectionRunner) :
  subscript msg (lit "data") = Ok data ->
  subscript msg (lit "command") = Ok command ->
  _connection r = None ->
  _handle_message now msg r
  = (Ok tt, r,
     [Log WARNING [Txt "Failed to handle "; Arg command;
                   Txt ", connection is None. Data: "; Arg data]]).
Proof.
  intros Hd Hc Hn. unfold _handle_message, bind, lift, get, logger, emit.
  rewrite Hd, Hc, Hn. reflexivity.
Qed.

(** C2, as the code has it. For every inbound envelope with command
    [PING] and data [X] dispatched while a facade exists, the dispatcher
    prints exactly one line, changes no attribute and raises nothing; the
    line is the [PONG] envelope whose data has [original] equal to [X]
    and, under the key [subprocess_time], the number [time.time()]
    returned; when [X] is a value [json] represents, [json.loads] of the
    line is that envelope. *)
Theorem ping_yields_one_pong (now : str) (msg x : value) (c : C)
    (r : ConnectionRunner) :
  _connection r = Some c ->
  subscript msg (lit "command") = Ok (VStr (lit "PING")) ->
  subscript msg (lit "data") = Ok x ->
  let data := VDict [(lit "original", x); (lit "subprocess_time", VFloat now)] in
  _handle_message now msg r = (Ok tt, r, [Stdout (encode (lit "PONG") data)])
  /\ subscript data (lit "original") = Ok x
  /\ (exists t, subscript data (lit "subprocess_time") = Ok t /\ is_number t = true)
  /\ (well_formed x = true -> is_float_repr now = true ->
      loads (encode (lit "PONG") data)
      = Some (VDict [(lit "command", VStr (lit "PONG")); (lit "data", data)])).
Proof.
  intros Hs Hc Hx data. repeat split.
  - unfold _handle_message, bind, lift, get, _send_command, emit.
    rewrite Hx, Hc, Hs. reflexivity.
  - exists (VFloat now). split; reflexivity.
  - intros Hwx Hnow. apply loads_encode; [reflexivity|].
    unfold data. cbn [well_formed forallb fst snd List.map].
    rewrite Hwx, Hnow. reflexivity.
Qed.

End DispatcherFacts.

Lemma no_facade_warns_and_drops_witness :
  _handle_message (lit "1.5")
    (VDict [(lit "command", VStr (lit "SET_MUTED"));
            (lit "data", VList [VBool true; VBool false])])
    (@Runner.init unit)
  = (Ok tt, @Runner.init unit,
     [Log WARNING [Txt "Failed to handle "; Arg (VStr (lit "SET_MUTED"));
                   Txt ", connection is None. Data: ";
                   Arg (VList [VBool true; VBool false])]]).
Proof.
  apply (no_facade_warns_and_drops (C := unit)); reflexivity.
Defined.

Lemma ping_yields_one_pong_witness :
  let r := runner (serving [] []) in
  let msg := VDict [(lit "command", VStr (lit "PING"));
                    (lit "data", VDict [(lit "x", VInt 1)])] in
  let data := VDict [(lit "original", VDict [(lit "x", VInt 1)]);
                     (lit "subprocess_time", VFloat (lit "1730739600.25"))] in
  _handle_message (lit "1730739600.25") msg r
  = (Ok tt, r, [Stdout (encode (lit "PONG") data)])
  /\ subscript data (lit "original") = Ok (VDict [(lit "x", VInt 1)])
  /\ (exists t, subscript data (lit "subprocess_time") = Ok t /\ is_number t = true)
  /\ (well_formed (VDict [(lit "x", VInt 1)]) = true ->
      is_float_repr (lit "1730739600.25") = true ->
      loads (encode (lit "PONG") data)
      = Some (VDict [(lit "command", VStr (lit "PONG")); (lit "data", data)])).
Proof.
  apply (ping_yields_one_pong (lit "1730739600.25") _ _ tt); reflexivity.
Defined.

(** C2 as stated fails.  With a facade, the one line printed for a
    [PING] is a [PONG] whose data has no [worker_time] field (the
    timestamp is under [subprocess_time]); without a facade the [PING]
    is answered by a warning in the log and no line at all. *)
Lemma ping_reply_has_no_worker_time :
  _handle_message (lit "1730739600.25")
    (VDict [(lit "command", VStr (lit "PING")); (lit "data", VInt 7)])
    (runner (serving [] []))
  = (Ok tt, runner (serving [] []),
     [Stdout (line_of "PONG"
                (VDict [(lit "original", VInt 7);
                        (lit "subprocess_time", VFloat (lit "1730739600.25"))]))])
  /\ loads (line_of "PONG"
              (VDict [(lit "original", VInt 7);
                      (lit "subprocess_time", VFloat (lit "1730739600.25"))]))
     = Some (VDict [(lit "command", VStr (lit "PONG"));
                    (lit "data",
                     VDict [(lit "original", VInt 7);
                            (lit "subprocess_time", VFloat (lit "1730739600.25"))])])
  /\ subscript (VDict [(lit "original", VInt 7);
                       (lit "subprocess_time", VFloat (lit "1730739600.25"))])
       (lit "worker_time")
     = Raise (KeyError (lit "worker_time"))
  /\ _handle_message (lit "1730739600.25")
       (VDict [(lit "command", VStr (lit "PING")); (lit "data", VInt 7)])
       (@Runner.init unit)
     = (Ok tt, @Runner.init unit,
        [Log WARNING [Txt "Failed to handle "; Arg (VStr (lit "PING"));
                      Txt ", connection is None. Data: "; Arg (VInt 7)]]).
Proof. repeat split; vm_compute; reflexivity. Qed.

(** ** The pump, [stop] and the state-change handler *)

Section PumpFacts.
Context {C : Type} `{Connection C}.
Variable state_value : ConnectionState -> value.

Lemma same_flags_refl (r : @ConnectionRunner C) : same_flags r r.
Proof. repeat split. Qed.

Lemma same_flags_trans (r1 r2 r3 : @ConnectionRunner C) :
  same_flags r1 r2 -> same_flags r2 r3 -> same_flags r1 r3.
Proof. unfold same_flags. intros (?&?&?) (?&?&?). repeat split; congruence. Qed.

Lemma stop_calls_app t1 t2 : stop_calls (t1 ++ t2) = (stop_calls t1 + stop_calls t2)%nat.
Proof. unfold stop_calls. rewrite List.filter_app, length_app. reflexivity. Qed.

Lemma stop_completions_app t1 t2 :
  stop_completions (t1 ++ t2) = (stop_completions t1 + stop_completions t2)%nat.
Proof. unfold stop_completions. rewrite List.filter_app, length_app. reflexivity. Qed.

Lemma quiet_ret {A} (a : A) : quiet (C:=C) (ret a).
Proof. intros r x r' t [= <- <- <-]. repeat split. Qed.

Lemma quiet_lift {A} (x : result A) : quiet (C:=C) (lift x).
Proof. intros r y r' t [= <- <- <-]. repeat split. Qed.

Lemma quiet_get {A} (f : @ConnectionRunner C -> A) : quiet (C:=C) (get f).
Proof. intros r y r' t [= <- <- <-]. repeat split. Qed.

Lemma quiet_emit e :
  is_stop_call e = false -> is_stop_complete e = false -> quiet (C:=C) (emit e).
Proof.
  intros H1 H2 r y r' t [= <- <- <-]. split; [repeat split|].
  unfold stop_calls, stop_completions. cbn [List.filter]. rewrite H1, H2. split; reflexivity.
Qed.

Lemma quiet_facade {A} (op : C -> C * result A) c : quiet (C:=C) (facade op c).
Proof.
  intros r y r' t. unfold facade. destruct (op c) as [c' x].
  intros [= <- <- <-]. repeat split.
Qed.

Lemma quiet_bind {A B} (m : @M C A) (f : A -> @M C B) :
  quiet m -> (forall a, quiet (f a)) -> quiet (bind m f).
Proof.
  intros Hm Hf r y r' t. unfold bind.
  destruct (m r) as [[[a|e] r1] t1] eqn:Em.
  - destruct (f a r1) as [[x r2] t2] eqn:Ef. intros [= <- <- <-].
    destruct (Hm _ _ _ _ Em) as (F1 & A1 & B1).
    destruct (Hf a _ _ _ _ Ef) as (F2 & A2 & B2).
    split; [eapply same_flags_trans; eassumption|].
    rewrite stop_calls_app, stop_completions_app. lia.
  - intros [= <- <- <-]. apply (Hm _ _ _ _ Em).
Qed.

Lemma quiet_send_command command data : quiet (C:=C) (_send_command command data).
Proof. apply quiet_emit; reflexivity. Qed.

Lemma quiet_handle_message now msg : quiet (C:=C) (_handle_message now msg).
Proof.
  unfold _handle_message.
  apply quiet_bind; [apply quiet_lift|]. intros data.
  apply quiet_bind; [apply quiet_lift|]. intros command.
  apply quiet_bind; [apply quiet_get|]. intros [c|].
  - repeat match goal with
    | |- quiet (if ?b then _ else _) => destruct b
    | |- quiet (bind _ _) => apply quiet_bind; [|intros ?]
    | |- quiet (lift _) => apply quiet_lift
    | |- quiet (facade _ _) => apply quiet_facade
    | |- quiet (_send_command _ _) => apply quiet_send_command
    | |- quiet (logger _ _) => apply quiet_emit; reflexivity
    end.
  - apply quiet_emit; reflexivity.
Qed.

Lemma loop_test_spec msg (r : @ConnectionRunner C) :
  loop_test msg r
  = (Ok (if str_eqb msg (lit "q") then Return
         else if _running r then Continue else Return), r, []).
Proof.
  unfold loop_test. destruct (str_eqb msg (lit "q")); [reflexivity|].
  unfold bind, get. destruct (_running r); reflexivity.
Qed.

Lemma quiet_loop_test msg : quiet (C:=C) (loop_test msg).
Proof. intros r x r' t. rewrite loop_test_spec. intros [= <- <- <-]. repeat split. Qed.

Lemma quiet_after_read now msg : quiet (C:=C) (after_read now msg).
Proof.
  unfold after_read. destruct (loads msg).
  - apply quiet_bind; [apply quiet_handle_message | intros; apply quiet_loop_test].
  - apply quiet_bind; [apply quiet_emit; reflexivity | intros; apply quiet_loop_test].
Qed.

(** The loop goes on only while [_running] is set and the line is not the
    sentinel. *)
Lemma after_read_continue now msg (r r' : @ConnectionRunner C) t :
  after_read now msg r = (Ok Continue, r', t) ->
  _running r' = true /\ msg <> lit "q".
Proof.
  unfold after_read.
  assert (Hgen : forall (m : @M C unit),
             bind m (fun _ => loop_test msg) r = (Ok Continue, r', t) ->
             _running r' = true /\ msg <> lit "q").
  { intros m. unfold bind. destruct (m r) as [[[[]|e] r1] t1]; [|discriminate].
    rewrite loop_test_spec. intros [= Hx <- <-].
    destruct (str_eqb msg (lit "q")) eqn:Eq; [discriminate|].
    destruct (_running r1) eqn:Er; [|discriminate].
    split; [reflexivity|]. intros ->. unfold str_eqb in Eq.
    rewrite bool_decide_eq_false in Eq. apply Eq. reflexivity. }
  destruct (loads msg); apply Hgen.
Qed.

End PumpFacts.

Section MachineFacts.
Context {C : Type} `{Connection C}.
Variable state_value : ConnectionState -> value.

Abbreviation step := (step state_value).
Abbreviation steps := (steps state_value).
Abbreviation history := (history state_value).

Lemma finish_all_done i ts : all_done ts = true -> all_done (finish i ts) = true.
Proof.
  unfold all_done. revert i.
  induction ts as [|t ts IH]; intros i Hd; [destruct i; reflexivity|].
  cbn [forallb] in Hd. apply andb_true_iff in Hd as [Ht Hd].
  destruct i; cbn [finish forallb].
  - exact Hd.
  - rewrite Ht. apply IH, Hd.
Qed.



Lemma stop_enter_spec (r : @ConnectionRunner C) :
  stop_enter r
  = (Ok (match _tasks r with [] => true | _ => false end),
     set_running false r, [Log DEBUG [Txt "ConnectionRunner Stopping"]]).
Proof. reflexivity. Qed.

Lemma stop_leave_spec (r : @ConnectionRunner C) :
  stop_leave r = (Ok tt, set_stopped_event r, [Log DEBUG [Txt "Stop complete"]]).
Proof. reflexivity. Qed.

Lemma handle_state_change_spec s (r : @ConnectionRunner C) :
  _handle_state_change state_value s r
  = if terminal s then
      match _tasks r with
      | [] =>
          (Ok true, set_stopped_event (set_running false r),
           [Stdout (encode (lit "STATE_CHANGE") (state_value s));
            Log DEBUG [Txt "Stopping, because state is "; ArgState s];
            Log DEBUG [Txt "ConnectionRunner Stopping"];
            Log DEBUG [Txt "Stop complete"]])
      | _ =>
          (Ok false, set_running false r,
           [Stdout (encode (lit "STATE_CHANGE") (state_value s));
            Log DEBUG [Txt "Stopping, because state is "; ArgState s];
            Log DEBUG [Txt "ConnectionRunner Stopping"]])
      end
    else (Ok true, r, [Stdout (encode (lit "STATE_CHANGE") (state_value s))]).
Proof.
  unfold _handle_state_change. destruct (terminal s); [|reflexivity].
  destruct r as [c b e [|t ts]]; reflexivity.
Qed.

Lemma completions_snoc (t : list event) e :
  stop_completions (t ++ [e])
  = (stop_completions t + (if is_stop_complete e then 1 else 0))%nat.
Proof.
  rewrite stop_completions_app. unfold stop_completions at 2. cbn [List.filter].
  destruct (is_stop_complete e); reflexivity.
Qed.

Ltac flags :=
  unfold running, stopped, same_flags in *;
  cbn [runner pump stdin gathering output set_pump set_stdin set_gathering
       _running _stopped_event _tasks _connection
       set_running set_stopped_event set_tasks set_connection
       exec fst snd pump_outcome modify logger emit] in *.

Ltac fin0 :=
  repeat split; intros; rewrite ?app_nil_r in *; cbn [is_read] in *;
  try congruence; try lia; try discriminate; auto.

Ltac fin :=
  repeat match goal with
  | Hc : ?a = ?a -> _ |- _ => specialize (Hc eq_refl)
  end;
  fin0; try solve [left; fin0 | right; fin0 | intuition (congruence || lia)].

(** What one step does to the attributes, to the place of [run] and to
    the records of [stop]. *)
Lemma step_facts l w w' :
  step l w = Some w' ->
  (pump w <> Created -> pump w' <> Created)
  /\ (running w' = true -> running w = true \/ (l = CallRun /\ pump w = Created))
  /\ (stopped w = true -> stopped w' = true)
  /\ (stop_completions (output w') <> stop_completions (output w) ->
      all_done (_tasks (runner w)) = true /\ stopped w' = true)
  /\ (stopped w = false -> stopped w' = true ->
      all_done (_tasks (runner w')) = true
      /\ stop_completions (output w') <> stop_completions (output w))
  /\ (gathering w' <> 0%nat \/ stopped w' = true ->
      (gathering w <> 0%nat \/ stopped w = true) \/ running w' = false)
  /\ (all_done (_tasks (runner w)) = true -> all_done (_tasks (runner w')) = true)
  /\ (pump w' = Reading ->
      running w' = true \/ (pump w = Reading /\ is_read l = false))
  /\ (is_read l = true -> pump w = Reading /\ (pump w' = Reading -> running w' = true))
  /\ (pump w = Created -> l <> CallRun -> pump w' = Created).
Proof.
  intros Hs. destruct l; cbn [step] in Hs.
  - (* CallRun *)
    destruct (pump w) eqn:Ep; try discriminate. injection Hs as <-. flags.
    fin.
  - (* FactoryDone *)
    destruct (pump w) eqn:Ep; try discriminate.
    match type of Hs with context [exec ?m w] =>
      assert (Hm : exists x, exec m w =
                 (Ok x,
                  {| runner := set_connection (Some c) (runner w); pump := pump w;
                     stdin := stdin w; gathering := gathering w;
                     output := output w ++
                       [Stdout (encode (lit "SET_LOCAL_DESCRIPTION")
                                  (VDict [(lit "sdp", sdp); (lit "type", type)]));
                        Log DEBUG [Txt "Listening for messages from main process"]] |})
                 /\ (x = Continue -> _running (runner w) = true))
    end.
    { unfold exec, bind, modify, _send_command, emit, logger, emit.
      cbn. rewrite loop_test_spec. cbn. rewrite app_nil_r.
      eexists. split; [reflexivity|]. destruct (_running (runner w)); [reflexivity|discriminate]. }
    destruct Hm as (x & Hm & Hx). rewrite Hm in Hs. injection Hs as <-.
    destruct x; flags; rewrite ?Ep, ?stop_completions_app; cbn;
      fin.
  - (* FactoryFailed *)
    destruct (pump w) eqn:Ep; try discriminate. injection Hs as <-. flags.
    fin.
  - (* ReadDone *)
    destruct (pump w) eqn:Ep; try discriminate.
    destruct (readline (stdin w)) as [msg rest]. unfold exec in Hs.
    cbn [runner set_stdin] in Hs.
    destruct (after_read now msg (runner w)) as [[x r'] t] eqn:Ea.
    injection Hs as <-.
    destruct (quiet_after_read _ _ _ _ _ _ Ea) as ((F1 & F2 & F3) & Hc & Hk).
    assert (Hcont : x = Ok Continue -> _running r' = true).
    { intros ->. apply (after_read_continue _ _ _ _ _ Ea). }
    destruct x as [[|]|e]; flags; rewrite ?Ep, ?stop_completions_app, ?Hk; cbn;
      fin.
  - (* CallStop *)
    unfold exec in Hs. rewrite stop_enter_spec in Hs.
    destruct (_tasks (runner w)) eqn:Et.
    + injection Hs as <-. flags. rewrite !stop_completions_app. cbn.
      fin; rewrite ?Et; reflexivity.
    + injection Hs as <-. flags. rewrite !stop_completions_app. cbn.
      rewrite ?Et. fin.
  - (* GatherDone *)
    destruct (gathering w) eqn:Eg; try discriminate.
    destruct (all_done (_tasks (runner w))) eqn:Ed; try discriminate.
    injection Hs as <-. flags. rewrite !stop_completions_app. cbn.
    fin.
  - (* TaskDone *)
    injection Hs as <-. flags. rewrite ?app_nil_r.
    fin; apply finish_all_done; assumption.
  - (* StateChange *)
    destruct (_connection (runner w)) eqn:Ec; try discriminate.
    unfold exec in Hs. rewrite handle_state_change_spec in Hs.
    destruct (terminal s); [destruct (_tasks (runner w)) eqn:Et|];
      injection Hs as <-; flags; rewrite ?stop_completions_app; cbn;
      rewrite ?Et; fin.
  - (* ApiMessage *)
    destruct (_connection (runner w)) eqn:Ec; try discriminate.
    injection Hs as <-. unfold _relay_api_message, _send_command in *. flags.
    rewrite ?stop_completions_app. cbn.
    fin.
Qed.

Lemma history_head ls w : exists h, history ls w = w :: h.
Proof. destruct ls; eexists; reflexivity. Qed.

Lemma falls_step f l ls w w1 :
  step l w = Some w1 ->
  falls f (history (l :: ls) w)
  = ((if f w && negb (f w1) then 1 else 0) + falls f (history ls w1))%nat.
Proof.
  intros Hs. cbn [Runner.history]. rewrite Hs.
  destruct (history_head ls w1) as [h Hh]. rewrite Hh. reflexivity.
Qed.


Lemma steps_pump ls : forall w w',
  steps ls w = Some w' -> pump w <> Created -> pump w' <> Created.
Proof.
  induction ls as [|l ls IH]; intros w w' Hr Hp.
  - injection Hr as <-. exact Hp.
  - cbn [Runner.steps] in Hr. destruct (step l w) as [w1|] eqn:Hs; [|discriminate].
    apply (IH _ _ Hr). apply (step_facts _ _ _ Hs). exact Hp.
Qed.

Lemma step_running_false l w w' :
  step l w = Some w' -> pump w <> Created -> running w = false -> running w' = false.
Proof.
  intros Hs Hp Hr. destruct (running w') eqn:E; [|reflexivity].
  destruct (step_facts _ _ _ Hs) as (_ & F2 & _).
  destruct (F2 E) as [F|[_ F]]; congruence.
Qed.

(** After [run] has set it, a cleared [_running] stays cleared, and
    [_running] falls at most once. *)
Lemma falls_of_running ls : forall w w',
  steps ls w = Some w' -> pump w <> Created ->
  (running w = false -> running w' = false)
  /\ falls running (history ls w) = (if running w && negb (running w') then 1 else 0)%nat.
Proof.
  induction ls as [|l ls IH]; intros w w' Hr Hp.
  - injection Hr as <-. split; [auto|]. cbn. destruct (running w); reflexivity.
  - cbn [Runner.steps] in Hr. destruct (step l w) as [w1|] eqn:Hs; [|discriminate].
    assert (Hp1 : pump w1 <> Created) by (apply (step_facts _ _ _ Hs); exact Hp).
    destruct (IH _ _ Hr Hp1) as [Hm Hfall]. split.
    + intros Hw. apply Hm, (step_running_false _ _ _ Hs Hp Hw).
    + rewrite (falls_step _ _ _ _ _ Hs), Hfall.
      pose proof (step_running_false _ _ _ Hs Hp) as H1.
      destruct (running w) eqn:E1, (running w1) eqn:E2, (running w') eqn:E3;
        cbn; try reflexivity;
        try (specialize (H1 eq_refl); discriminate);
        try (specialize (Hm eq_refl); discriminate).
Qed.




(** Once [_running] is cleared, the pump takes at most the line it was
    already waiting for. *)
Lemma reads_after_clear ls : forall w w',
  steps ls w = Some w' -> pump w <> Created -> running w = false ->
  (reads ls <= match pump w with Reading => 1 | _ => 0 end)%nat.
Proof.
  induction ls as [|l ls IH]; intros w w' Hr Hp Hrun.
  - cbn. lia.
  - cbn [Runner.steps] in Hr. destruct (step l w) as [w1|] eqn:Hs; [|discriminate].
    destruct (step_facts _ _ _ Hs) as (F1 & _ & _ & _ & _ & _ & _ & F8 & F9 & _).
    pose proof (step_running_false _ _ _ Hs Hp Hrun) as Hrun1.
    specialize (IH _ _ Hr (F1 Hp) Hrun1).
    unfold reads in *. cbn [List.filter]. destruct (is_read l) eqn:El.
    + destruct (F9 eq_refl) as [Hpw Hcont]. rewrite Hpw. cbn [length].
      destruct (pump w1) eqn:Ep1; try lia.
      specialize (Hcont eq_refl). congruence.
    + destruct (pump w1) eqn:Ep1; try lia.
      destruct (F8 eq_refl) as [Hx|[Hpw _]]; [congruence|]. rewrite Hpw. lia.
Qed.

End MachineFacts.

Section StopFacts.
Context {C : Type} `{Connection C}.
Variable state_value : ConnectionState -> value.

Abbreviation step := (step state_value).
Abbreviation steps := (steps state_value).
Abbreviation history := (history state_value).



(** C7, as the code has it.  In every run after [run] has set the flag:
    [_running] goes from true to false at most once and, once false, is
    false ever after; and once it is false the pump takes at most one
    more line, the one whose read was pending when the flag was cleared,
    and none when no read was pending. *)
Theorem running_falls_at_most_once (ls : list label) (w w' : @world C) :
  steps ls w = Some w' ->
  pump w <> Created ->
  (falls running (history ls w) <= 1)%nat
  /\ (running w = false -> running w' = false)
  /\ (running w = false ->
      (reads ls <= match pump w with Reading => 1 | _ => 0 end)%nat).
Proof.
  intros Hr Hp. destruct (falls_of_running state_value _ _ _ Hr Hp) as [Hm Hf].
  repeat split.
  - rewrite Hf. destruct (running w && negb (running w')); lia.
  - exact Hm.
  - intros Hrun. apply (reads_after_clear state_value _ _ _ Hr Hp Hrun).
Qed.

(** C3, as the code has it.  On every transition the handler prints a
    [STATE_CHANGE] envelope carrying the value of the new state, and
    nothing else on the outbound channel; it invokes [stop] once when
    the new state is [CLOSED] or [FAILED], each time such a transition
    is seen, and not at all otherwise. *)
Theorem state_change_emits_and_stops (s : ConnectionState) (r : @ConnectionRunner C) :
  exists b r' t,
    _handle_state_change state_value s r
    = (Ok b, r', Stdout (encode (lit "STATE_CHANGE") (state_value s)) :: t)
    /\ forallb is_debug t = true
    /\ stop_calls t = (if terminal s then 1 else 0)%nat.
Proof.
  rewrite handle_state_change_spec.
  destruct (terminal s); [destruct (_tasks r)|];
    eexists _, _, _; (split; [reflexivity|]); split; reflexivity.
Qed.

End StopFacts.

(** *** The pump at one line *)

Section OneLine.
Context {C : Type} `{Connection C}.
Variable state_value : ConnectionState -> value.

Abbreviation step := (step state_value).

(** A line that [json.loads] rejects is logged and the pump reads on,
    unless the line is the sentinel or [stop] cleared the flag. *)
Lemma decode_failure_is_recovered now (w : @world C) msg rest :
  pump w = Reading -> readline (stdin w) = (msg, rest) ->
  loads msg = None -> msg <> lit "q" -> running w = true ->
  step (ReadDone now) w
  = Some {| runner := runner w; pump := Reading; stdin := rest;
            gathering := gathering w;
            output := output w
              ++ [Log ERROR [Txt "Failed to parse message from main process: ";
                             ArgError]] |}.
Proof.
  intros Hp Hr Hl Hq Hrun. cbn [Runner.step]. rewrite Hp, Hr.
  unfold exec, after_read. rewrite Hl. unfold bind, logger, emit.
  rewrite loop_test_spec. cbn [runner set_stdin].
  replace (str_eqb msg (lit "q")) with false
    by (symmetry; apply bool_decide_eq_false; exact Hq).
  unfold running in Hrun. rewrite Hrun. reflexivity.
Qed.

(** A line that is JSON but has no [data] to look up ends the pump: the
    exception of the lookup leaves [run], and nothing is logged. *)
Lemma lookup_error_leaves_the_pump now (w : @world C) msg rest v e :
  pump w = Reading -> readline (stdin w) = (msg, rest) ->
  loads msg = Some v -> subscript v (lit "data") = Raise e ->
  step (ReadDone now) w
  = Some {| runner := runner w; pump := Raised e; stdin := rest;
            gathering := gathering w; output := output w |}.
Proof.
  intros Hp Hr Hl He. cbn [Runner.step]. rewrite Hp, Hr.
  unfold exec, after_read. rewrite Hl. unfold bind, _handle_message, bind, lift.
  rewrite He. cbn [runner set_stdin pump_outcome set_pump pump stdin gathering output].
  rewrite app_nil_r. reflexivity.
Qed.

(** When [_read] returns the sentinel itself, [run] returns. *)
Lemma sentinel_returns now (w : @world C) rest :
  pump w = Reading -> readline (stdin w) = (lit "q", rest) ->
  exists w', step (ReadDone now) w = Some w'
    /\ pump w' = Returned /\ runner w' = runner w.
Proof.
  intros Hp Hr. cbn [Runner.step]. rewrite Hp, Hr.
  unfold exec, after_read. change (loads (lit "q")) with (@None value).
  unfold bind, logger, emit. rewrite loop_test_spec.
  change (str_eqb (lit "q") (lit "q")) with true.
  eexists. split; [reflexivity|]. split; reflexivity.
Qed.

(** [run] returns after a line only on the sentinel or on a cleared
    flag. *)
Lemma return_needs_stop_or_sentinel now (w w' : @world C) :
  step (ReadDone now) w = Some w' -> pump w' = Returned ->
  fst (readline (stdin w)) = lit "q" \/ running w' = false.
Proof.
  intros Hs Hret. cbn [Runner.step] in Hs.
  destruct (pump w) eqn:Ep; try discriminate.
  destruct (readline (stdin w)) as [msg rest]. cbn [fst].
  unfold exec in Hs. cbn [runner set_stdin] in Hs.
  destruct (after_read now msg (runner w)) as [[x r'] t] eqn:Ea.
  injection Hs as <-.
  destruct x as [[|]|e]; cbn in Hret; try discriminate.
  unfold running. cbn [runner set_pump exec snd logger emit].
  clear Hret. unfold after_read in Ea.
  assert (Hgen : forall (m : @M C unit),
             bind m (fun _ => loop_test msg) (runner w) = (Ok Return, r', t) ->
             msg = lit "q" \/ _running r' = false).
  { intros m. unfold bind. destruct (m (runner w)) as [[[[]|e] r1] t1]; [|discriminate].
    rewrite loop_test_spec. intros [= Hx <- <-].
    destruct (str_eqb msg (lit "q")) eqn:Eq.
    - left. apply bool_decide_eq_true in Eq. exact Eq.
    - right. destruct (_running r1); [discriminate | reflexivity]. }
  destruct (loads msg); apply (Hgen _ Ea).
Qed.

End OneLine.



Lemma running_falls_at_most_once_witness :
  exists w' : @world unit,
    steps state_name [ReadDone (lit "1.5"); CallStop; ReadDone (lit "2.5")]
      (serving [] (line_of "PING" VNone ++ line_of "PING" (VInt 1) ++ line_of "PING" (VInt 2)))
    = Some w'
    /\ pump (serving [] (line_of "PING" VNone ++ line_of "PING" (VInt 1)
                          ++ line_of "PING" (VInt 2))) <> Created
    /\ (falls running
          (history state_name [ReadDone (lit "1.5"); CallStop; ReadDone (lit "2.5")]
             (serving [] (line_of "PING" VNone ++ line_of "PING" (VInt 1)
                           ++ line_of "PING" (VInt 2)))) <= 1)%nat
    /\ (running (serving [] (line_of "PING" VNone ++ line_of "PING" (VInt 1)
                              ++ line_of "PING" (VInt 2))) = false ->
        running w' = false)
    /\ (running (serving [] (line_of "PING" VNone ++ line_of "PING" (VInt 1)
                              ++ line_of "PING" (VInt 2))) = false ->
        (@reads unit [ReadDone (lit "1.5"); CallStop; ReadDone (lit "2.5")]
         <= match pump (serving [] (line_of "PING" VNone ++ line_of "PING" (VInt 1)
                                     ++ line_of "PING" (VInt 2))) with
            | Reading => 1
            | _ => 0
            end)%nat).
Proof.
  eexists. split; [vm_compute; reflexivity|]. split; [discriminate|].
  apply (running_falls_at_most_once state_name
           [ReadDone (lit "1.5"); CallStop; ReadDone (lit "2.5")]
           (serving [] (line_of "PING" VNone ++ line_of "PING" (VInt 1)
                         ++ line_of "PING" (VInt 2)))).
  - vm_compute. reflexivity.
  - discriminate.
Defined.

(** C7 as stated fails twice.  A pump that reads the sentinel returns
    with [_running] still true: the flag never went from true to false.
    And a line whose read was pending when [stop] cleared the flag is
    still dispatched: after the facade went to [CLOSED] and the handler
    ran [stop], the [PING] that arrives is answered. *)
Lemma running_flag_counterexample :
  option_map (fun w => (pump w, running w))
    (steps state_name [ReadDone (lit "1.5")] (serving [] (lit "q")))
  = Some (Returned, true)
  /\ falls running (history state_name [ReadDone (lit "1.5")] (serving [] (lit "q")))
     = 0%nat
  /\ option_map (fun w => (pump w, running w, stopped w))
       (steps state_name [StateChange CLOSED] (serving [] (line_of "PING" (VInt 7))))
     = Some (Reading, false, true)
  /\ option_map output
       (steps state_name [StateChange CLOSED; ReadDone (lit "1.5")]
          (serving [] (line_of "PING" (VInt 7))))
     = Some [Stdout (line_of "STATE_CHANGE" (state_name CLOSED));
             Log DEBUG [Txt "Stopping, because state is "; ArgState CLOSED];
             Log DEBUG [Txt "ConnectionRunner Stopping"];
             Log DEBUG [Txt "Stop complete"];
             Stdout (line_of "PONG"
                       (VDict [(lit "original", VInt 7);
                               (lit "subprocess_time", VFloat (lit "1.5"))]));
             Log DEBUG [Txt "ConnectionRunner exiting"]].
Proof. repeat split; vm_compute; reflexivity. Qed.

(** C3 as stated fails: when the facade goes to [CLOSED] and then to
    [FAILED], the handler invokes [stop] twice. *)
Lemma two_terminal_states_stop_twice :
  option_map (fun w => stop_calls (output w))
    (steps state_name [StateChange CLOSED; StateChange FAILED] (serving [] []))
  = Some 2%nat.
Proof. vm_compute. reflexivity. Qed.

(** C1.  The code at a line that is valid JSON without the keys: the
    line [{}] makes [_handle_message] raise [KeyError] outside the [try];
    the exception leaves [_listen_for_messages], nothing is logged, and
    the [PING] on the next line is never read.  A line that is not JSON
    is logged and the [PING] after it is answered. *)
Theorem missing_key_ends_the_pump :
  option_map (fun w => (pump w, stdin w, output w))
    (steps state_name [ReadDone (lit "1.5")]
       (serving [] (lit "{}" ++ [10] ++ line_of "PING" VNone)))
  = Some (Raised (KeyError (lit "data")), line_of "PING" VNone, [])
  /\ steps state_name [ReadDone (lit "1.5"); ReadDone (lit "2.5")]
       (serving [] (lit "{}" ++ [10] ++ line_of "PING" VNone))
     = None
  /\ option_map (fun w => (pump w, stdin w, output w))
       (steps state_name [ReadDone (lit "1.5"); ReadDone (lit "2.5")]
          (serving [] (lit "not valid data" ++ [10] ++ line_of "PING" VNone)))
     = Some (Reading, [],
             [Log ERROR [Txt "Failed to parse message from main process: "; ArgError];
              Stdout (line_of "PONG"
                        (VDict [(lit "original", VNone);
                                (lit "subprocess_time", VFloat (lit "2.5"))]))]).
Proof. repeat split; vm_compute; reflexivity. Qed.

(** C5.  The code at three inputs.  A line holding a JSON array ends the
    loop by a [TypeError] while [_running] is true and no sentinel was
    read.  The sentinel followed by a newline, as [readline] returns a
    line, does not end the loop.  The sentinel at the very end of the
    input, without a newline, ends it. *)
Theorem pump_exits :
  option_map (fun w => (pump w, running w))
    (steps state_name [ReadDone (lit "1.5")]
       (serving [] (lit "[1, 2]" ++ [10] ++ line_of "PING" VNone)))
  = Some (Raised TypeError, true)
  /\ option_map (fun w => (pump w, stdin w))
       (steps state_name [ReadDone (lit "1.5")]
          (serving [] (lit "q" ++ [10] ++ line_of "PING" VNone)))
     = Some (Reading, line_of "PING" VNone)
  /\ option_map (fun w => (pump w, running w))
       (steps state_name [ReadDone (lit "1.5")] (serving [] (lit "q")))
     = Some (Returned, true).
Proof. repeat split; vm_compute; reflexivity. Qed.

(** ** The session manager *)

Section SessionFacts.

Import Sessions.

Variable SessionData : Type.
Variable new_SessionData : SessionDict -> outcome SessionData.
Variable asdict : SessionData -> SessionDict.
Variable str_of : SessionData -> str.
Variable generate_unique_id : list str -> str.

Abbreviation create_session :=
  (create_session SessionData new_SessionData asdict str_of generate_unique_id).
Abbreviation delete_session := (delete_session SessionData).
Abbreviation get_session := (get_session SessionData).

Lemma str_eqb_false a b : str_eqb a b = false <-> a <> b.
Proof. unfold str_eqb. apply bool_decide_eq_false. Qed.

Lemma write_keeps_sessions d (m : SessionManager SessionData) :
  _sessions _ (fst (_write SessionData d m)) = _sessions _ m.
Proof. unfold _write. destruct (str_eqb (id d) []); reflexivity. Qed.


(** C10. For every id, [delete_session] raises an [ErrorDictException]
    with code 404 and leaves the manager as it was when the id is not
    the id of a known session; when it is, it returns [True] and
    [get_session] returns [None] for that id afterwards. *)
Theorem delete_session_removes (i : str) (m : SessionManager SessionData) :
  (get_session i m = None ->
   exists e t, delete_session i m = (Raises e, m, t) /\ code e = 404%Z)
  /\ (forall s, get_session i m = Some s ->
      exists m' t,
        delete_session i m = (Return true, m', t) /\ get_session i m' = None).
Proof.
  unfold Sessions.get_session, Sessions.delete_session. split.
  - intros Hn. rewrite Hn. eexists _, _. split; reflexivity.
  - intros s Hs. rewrite Hs.
    assert (Hk : _sessions _ (fst (_delete_file SessionData (i ++ lit ".json") m))
                 = _sessions _ m).
    { unfold _delete_file. destruct (files _ m !! (i ++ lit ".json")); reflexivity. }
    destruct (_delete_file SessionData (i ++ lit ".json") m) as [m1 t].
    cbn [fst] in Hk. rewrite Hk, Hs.
    eexists _, _. split.
    + rewrite bool_decide_eq_true_2 by discriminate. reflexivity.
    + cbn [_sessions]. apply lookup_delete_eq.
Qed.

End SessionFacts.

Section SessionExamples.

Import Sessions.


Lemma delete_session_removes_witness :
  exists m' t,
    Sessions.delete_session SessionDict (lit "s")
      {| _sessions := {[ lit "s" := blank_session ]}; files := empty |}
    = (Return true, m', t)
    /\ Sessions.get_session SessionDict (lit "s") m' = None.
Proof.
  apply (proj2 (delete_session_removes SessionDict (lit "s")
                  {| _sessions := {[ lit "s" := blank_session ]}; files := empty |})
           blank_session).
  vm_compute. reflexivity.
Defined.

End SessionExamples.

(** * Further properties

    The rest of the dispatcher, the pump at its edges, the runs of a
    fresh worker, and the session manager with its drive. *)

(** ** The other commands of the dispatcher *)

Section DispatchTable.
Context {C : Type} `{Connection C}.

(** X1. With a facade, [SEND], [HANDLE_ANSWER] and [STOP_SUBCONNECTION] are
    the operation of the same name on the data of the envelope: nothing
    is printed or logged, and what the operation returns or raises is
    what the dispatcher returns or raises.  [CREATE_OFFER] prints the
    offer the facade returns as one [SUBSCRIBER_OFFER] envelope, and
    prints nothing when the facade raises. *)
Theorem commands_forward_to_the_facade (now : str) (msg data : value) (c : C)
    (r : ConnectionRunner) :
  _connection r = Some c ->
  subscript msg (lit "data") = Ok data ->
  (subscript msg (lit "command") = Ok (VStr (lit "SEND")) ->
   _handle_message now msg r
   = (snd (send c data), set_connection (Some (fst (send c data))) r, []))
  /\ (subscript msg (lit "command") = Ok (VStr (lit "HANDLE_ANSWER")) ->
      _handle_message now msg r
      = (snd (handle_subscriber_answer c data),
         set_connection (Some (fst (handle_subscriber_answer c data))) r, []))
  /\ (subscript msg (lit "command") = Ok (VStr (lit "STOP_SUBCONNECTION")) ->
      _handle_message now msg r
      = (snd (stop_subconnection c data),
         set_connection (Some (fst (stop_subconnection c data))) r, []))
  /\ (subscript msg (lit "command") = Ok (VStr (lit "CREATE_OFFER")) ->
      _handle_message now msg r
      = match create_subscriber_offer c data with
        | (c', Ok offer) =>
            (Ok tt, set_connection (Some c') r,
             [Stdout (encode (lit "SUBSCRIBER_OFFER") offer)])
        | (c', Raise e) => (Raise e, set_connection (Some c') r, [])
        end).
Proof.
  intros Hs Hd. repeat split; intros Hc;
    unfold _handle_message, bind, lift, get, facade, _send_command, emit;
    rewrite Hd, Hc, Hs; cbn.
  - destruct (send c data) as [c' [[]|e]]; reflexivity.
  - destruct (handle_subscriber_answer c data) as [c' [[]|e]]; reflexivity.
  - destruct (stop_subconnection c data) as [c' [[]|e]]; reflexivity.
  - destruct (create_subscriber_offer c data) as [c' [offer|e]]; reflexivity.
Qed.

(** X2. [SET_MUTED] takes its data apart: a list of two elements gives the
    two arguments of [set_muted], in order; a list of any other length
    raises [ValueError] and a number, a boolean or [None] raises
    [TypeError], both before the facade is touched. *)
Theorem set_muted_takes_a_pair (now : str) (msg data : value) (c : C)
    (r : ConnectionRunner) :
  _connection r = Some c ->
  subscript msg (lit "command") = Ok (VStr (lit "SET_MUTED")) ->
  subscript msg (lit "data") = Ok data ->
  (forall video audio, data = VList [video; audio] ->
   _handle_message now msg r
   = (snd (set_muted c video audio),
      set_connection (Some (fst (set_muted c video audio))) r, []))
  /\ (forall xs, data = VList xs -> length xs <> 2%nat ->
      _handle_message now msg r = (Raise ValueError, r, []))
  /\ (data = VNone \/ (exists b, data = VBool b) \/ is_number data = true ->
      _handle_message now msg r = (Raise TypeError, r, [])).
Proof.
  intros Hs Hc Hd. repeat split.
  - intros video audio ->.
    unfold _handle_message, bind, lift, get, facade. rewrite Hd, Hc, Hs. cbn.
    destruct (set_muted c video audio) as [c' [[]|e]]; reflexivity.
  - intros xs -> Hl.
    unfold _handle_message, bind, lift, get, facade. rewrite Hd, Hc, Hs. cbn.
    destruct xs as [|a [|b [|d xs]]]; try reflexivity. contradiction Hl. reflexivity.
  - intros Hk.
    unfold _handle_message, bind, lift, get, facade. rewrite Hd, Hc, Hs. cbn.
    destruct Hk as [->|[[b ->]|Hn]]; try reflexivity.
    destruct data; try discriminate; reflexivity.
Qed.


End DispatchTable.

(** ** The pump at its edges *)

Section PumpEdges.
Context {C : Type} `{Connection C}.
Variable state_value : ConnectionState -> value.

Abbreviation step := (step state_value).
Abbreviation steps := (steps state_value).

(** X4. A line that carries a command the dispatcher has no case for is
    logged as an error, and the pump reads on: no attribute changes, the
    facade is not touched and nothing is printed. *)
Theorem unknown_command_is_logged_and_skipped (now : str) (w : @world C)
    (msg rest : str) (v command data : value) (c : C) :
  pump w = Reading ->
  readline (stdin w) = (msg, rest) ->
  loads msg = Some v ->
  subscript v (lit "data") = Ok data ->
  subscript v (lit "command") = Ok command ->
  known_command command = false ->
  _connection (runner w) = Some c ->
  running w = true ->
  step (ReadDone now) w
  = Some {| runner := runner w; pump := Reading; stdin := rest;
            gathering := gathering w;
            output := output w
              ++ [Log ERROR [Txt "Unrecognized command from main process: ";
                             Arg command]] |}.
Proof.
  intros Hp Hr Hl Hd Hc Hk Hs Hrun. cbn [Runner.step]. rewrite Hp, Hr.
  unfold exec, after_read. rewrite Hl.
  unfold known_command in Hk.
  repeat (apply orb_false_iff in Hk; destruct Hk as [Hk ?]).
  unfold bind at 1. unfold _handle_message, bind, lift, get, logger, emit.
  cbn [runner set_stdin]. rewrite Hd, Hc, Hs.
  repeat match goal with E : is_command command _ = false |- _ => rewrite E; clear E end.
  rewrite loop_test_spec.
  assert (Hq : str_eqb msg (lit "q") = false).
  { apply bool_decide_eq_false. intros ->. discriminate Hl. }
  rewrite Hq. unfold running in Hrun. rewrite Hrun. reflexivity.
Qed.

(** X6. At the end of the input [readline] returns the empty string, which
    is no JSON: the pump logs a parse failure and reads again.  However
    often it reads, [run] does not return and nothing changes but the
    log. *)
Theorem end_of_input_never_ends_the_pump (nows : list str) (w : @world C) :
  pump w = Reading -> stdin w = [] -> running w = true ->
  steps (List.map ReadDone nows) w
  = Some {| runner := runner w; pump := Reading; stdin := [];
            gathering := gathering w;
            output := output w ++ repeat parse_failure (length nows) |}.
Proof.
  revert w. induction nows as [|now nows IH]; intros w Hp Hi Hrun.
  - cbn. rewrite app_nil_r. destruct w; cbn in *; subst. reflexivity.
  - cbn [List.map Runner.steps].
    rewrite (decode_failure_is_recovered state_value now w [] []); try assumption.
    + rewrite IH; try reflexivity; [|exact Hrun].
      cbn [runner gathering output length repeat]. rewrite <- app_assoc. reflexivity.
    + rewrite Hi. reflexivity.
    + reflexivity.
    + discriminate.
Qed.

(** X7. The sentinel is no JSON either: the line that ends the loop is first
    logged as a parse failure; then [run] logs that it exits and
    returns, whatever [_running] is and without changing it. *)
Theorem sentinel_is_logged_as_a_parse_failure (now : str) (w : @world C) (rest : str) :
  pump w = Reading ->
  readline (stdin w) = (lit "q", rest) ->
  step (ReadDone now) w
  = Some {| runner := runner w; pump := Returned; stdin := rest;
            gathering := gathering w;
            output := output w
              ++ [parse_failure; Log DEBUG [Txt "ConnectionRunner exiting"]] |}.
Proof.
  intros Hp Hr. cbn [Runner.step]. rewrite Hp, Hr.
  unfold exec, after_read. change (loads (lit "q")) with (@None value).
  unfold bind, logger, emit. rewrite loop_test_spec.
  change (str_eqb (lit "q") (lit "q")) with true.
  cbn [pump_outcome set_pump exec snd logger emit runner set_stdin pump stdin
       gathering output].
  unfold exec, logger, emit.
  cbn [pump_outcome set_pump exec snd logger emit runner set_stdin pump stdin
       gathering output].
  rewrite app_nil_r, <- app_assoc. reflexivity.
Qed.

(** X8. When the factory returns, [run] stores the connection and prints the
    answer as a [SET_LOCAL_DESCRIPTION] envelope before it reads
    anything.  It then listens if [_running] is still set; if [stop] ran
    while [run] was waiting for the factory, it returns at once and the
    input is left as it is. *)
Theorem run_announces_before_it_listens (c : C) (sdp type : value) (w : @world C) :
  pump w = Connecting ->
  step (FactoryDone c sdp type) w
  = Some {| runner := set_connection (Some c) (runner w);
            pump := if running w then Reading else Returned;
            stdin := stdin w;
            gathering := gathering w;
            output := output w
              ++ [Stdout (encode (lit "SET_LOCAL_DESCRIPTION")
                            (VDict [(lit "sdp", sdp); (lit "type", type)]));
                  Log DEBUG [Txt "Listening for messages from main process"]]
              ++ (if running w then []
                  else [Log DEBUG [Txt "ConnectionRunner exiting"]]) |}.
Proof.
  intros Hp. cbn [Runner.step]. rewrite Hp.
  unfold exec, bind, modify, _send_command, emit, logger, emit.
  cbn. rewrite loop_test_spec. cbn. unfold running.
  destruct (_running (runner w)); cbn; rewrite ?app_nil_r, <- ?app_assoc; reflexivity.
Qed.

End PumpEdges.

Section PingAtThePump.
Context {C : Type} `{Connection C}.
Variable state_value : ConnectionState -> value.

Abbreviation step := (step state_value).


End PingAtThePump.

(** ** What holds in every run of a fresh worker *)

Section FreshWorker.
Context {C : Type} `{Connection C}.
Variable state_value : ConnectionState -> value.

Abbreviation step := (step state_value).
Abbreviation steps := (steps state_value).

(** With a connection, the dispatcher keeps a connection and logs no
    warning. *)
Lemma handle_message_with_facade now msg (r r' : @ConnectionRunner C) c x t :
  _connection r = Some c ->
  _handle_message now msg r = (x, r', t) ->
  (exists c', _connection r' = Some c')
  /\ forallb (fun e => negb (is_warning e)) t = true.
Proof.
  intros Hc. unfold _handle_message, bind, lift, get, facade, _send_command,
    logger, emit.
  destruct (subscript msg (lit "data")) as [data|e];
    [|intros [= <- <- <-]; eauto].
  destruct (subscript msg (lit "command")) as [command|e];
    [|intros [= <- <- <-]; eauto].
  rewrite Hc.
  repeat match goal with
  | |- context [if ?b then _ else _] => destruct b
  end;
  repeat match goal with
  | |- context [unpack2 ?d] => destruct (unpack2 d) as [[? ?]|?]
  | |- context [send ?a ?b] => destruct (send a b) as [? [[]|?]]
  | |- context [create_subscriber_offer ?a ?b] =>
      destruct (create_subscriber_offer a b) as [? [?|?]]
  | |- context [handle_subscriber_answer ?a ?b] =>
      destruct (handle_subscriber_answer a b) as [? [[]|?]]
  | |- context [stop_subconnection ?a ?b] =>
      destruct (stop_subconnection a b) as [? [[]|?]]
  | |- context [set_muted ?a ?b ?d] => destruct (set_muted a b d) as [? [[]|?]]
  end; cbn; intros [= <- <- <-]; cbn; eauto.
Qed.

Lemma after_read_with_facade now msg (r r' : @ConnectionRunner C) c x t :
  _connection r = Some c ->
  after_read now msg r = (x, r', t) ->
  (exists c', _connection r' = Some c')
  /\ forallb (fun e => negb (is_warning e)) t = true.
Proof.
  intros Hc. unfold after_read. destruct (loads msg) as [v|].
  - unfold bind. destruct (_handle_message now v r) as [[[[]|e] r1] t1] eqn:Eh.
    + destruct (handle_message_with_facade _ _ _ _ _ _ _ Hc Eh) as [Hc1 Ht1].
      rewrite loop_test_spec. intros [= <- <- <-]. rewrite app_nil_r. eauto.
    + intros [= <- <- <-]. eapply handle_message_with_facade; eauto.
  - unfold bind, logger, emit. rewrite loop_test_spec.
    intros [= <- <- <-]. eauto.
Qed.

Lemma step_keeps_facade l (w w' : @world C) :
  step l w = Some w' ->
  (pump w = Reading \/ pump w = Returned -> exists c, _connection (runner w) = Some c) ->
  forallb (fun e => negb (is_warning e)) (output w) = true ->
  (pump w' = Reading \/ pump w' = Returned -> exists c, _connection (runner w') = Some c)
  /\ forallb (fun e => negb (is_warning e)) (output w') = true.
Proof.
  intros Hs Hc Ho. destruct l; cbn [Runner.step] in Hs.
  - destruct (pump w) eqn:Ep; try discriminate. injection Hs as <-.
    cbn. rewrite app_nil_r. split; [intros [?|?]; discriminate | exact Ho].
  - destruct (pump w) eqn:Ep; try discriminate.
    revert Hs. unfold exec, bind, modify, _send_command, emit, logger, emit.
    cbn. rewrite loop_test_spec. cbn.
    destruct (_running (runner w)); cbn; intros [= <-]; cbn;
      rewrite ?app_nil_r, ?forallb_app, ?Ho; cbn; eauto.
  - destruct (pump w) eqn:Ep; try discriminate. injection Hs as <-.
    cbn. split; [intros [?|?]; discriminate | exact Ho].
  - destruct (pump w) eqn:Ep; try discriminate.
    destruct Hc as [c Hc]; [left; reflexivity|].
    destruct (readline (stdin w)) as [msg rest].
    unfold exec in Hs. cbn [runner set_stdin] in Hs.
    destruct (after_read now msg (runner w)) as [[x r'] t] eqn:Ea.
    destruct (after_read_with_facade _ _ _ _ _ _ _ Hc Ea) as [Hc' Ht].
    injection Hs as <-.
    destruct x as [[|]|e]; cbn; unfold exec; cbn;
      rewrite ?forallb_app, ?Ho, ?Ht; cbn; eauto.
  - unfold exec in Hs. rewrite stop_enter_spec in Hs.
    destruct (_tasks (runner w)); cbn in Hs; injection Hs as <-; cbn;
      rewrite ?forallb_app, ?Ho; cbn; split; auto.
  - destruct (gathering w); [discriminate|].
    destruct (all_done _); [|discriminate]. injection Hs as <-.
    unfold exec. cbn. rewrite ?forallb_app, ?Ho. cbn. auto.
  - injection Hs as <-. unfold exec, modify. cbn. rewrite app_nil_r. auto.
  - destruct (_connection (runner w)) as [c|] eqn:Ec; [|discriminate].
    unfold exec in Hs. rewrite handle_state_change_spec in Hs.
    destruct (terminal s); [destruct (_tasks (runner w))|];
      injection Hs as <-; cbn; rewrite ?forallb_app, ?Ho, ?Ec; cbn; eauto.
  - destruct (_connection (runner w)) as [c|] eqn:Ec; [|discriminate].
    injection Hs as <-. unfold exec. cbn. rewrite ?forallb_app, ?Ho, ?Ec. cbn. eauto.
Qed.

(** X9. In every run of a worker that starts at [__init__]: whenever [run]
    listens or has returned, the connection exists, for [run] waits for
    the factory before it reads a line; so the warning the dispatcher
    logs when [_connection] is [None] is never written. *)
Theorem connection_exists_while_listening (ls : list label) (input : str)
    (w : @world C) :
  steps ls (start input) = Some w ->
  (pump w = Reading \/ pump w = Returned -> exists c, _connection (runner w) = Some c)
  /\ forallb (fun e => negb (is_warning e)) (output w) = true.
Proof.
  assert (Hgen : forall ls (w0 w : @world C),
    steps ls w0 = Some w ->
    (pump w0 = Reading \/ pump w0 = Returned -> exists c, _connection (runner w0) = Some c) ->
    forallb (fun e => negb (is_warning e)) (output w0) = true ->
    (pump w = Reading \/ pump w = Returned -> exists c, _connection (runner w) = Some c)
    /\ forallb (fun e => negb (is_warning e)) (output w) = true).
  { clear. intros ls. induction ls as [|l ls IH]; intros w0 w Hs Hc Ho.
    - injection Hs as <-. auto.
    - cbn [Runner.steps] in Hs. destruct (step l w0) as [w1|] eqn:E1; [|discriminate].
      destruct (step_keeps_facade _ _ _ E1 Hc Ho) as [Hc1 Ho1].
      exact (IH _ _ Hs Hc1 Ho1). }
  intros Hs. apply (Hgen _ _ _ Hs); [|reflexivity].
  cbn. intros [?|?]; discriminate.
Qed.

Ltac look :=
  cbn [runner pump stdin gathering output set_pump set_stdin set_gathering snd fst
       _tasks _running _stopped_event _connection set_running set_stopped_event
       set_connection set_tasks pump_outcome exec logger emit modify].

Ltac counts Ho Hst :=
  rewrite ?app_nil_r, ?stop_completions_app, ?stop_calls_app, ?Ho;
  repeat split; try assumption; try reflexivity;
  try (intros Hne; apply Hst; revert Hne; cbn [stop_calls List.filter is_stop_call length];
       cbn; rewrite ?Nat.add_0_r; trivial).

Lemma step_never_waits l (w w' : @world C) :
  step l w = Some w' ->
  _tasks (runner w) = [] -> gathering w = 0%nat ->
  stop_completions (output w) = stop_calls (output w) ->
  (stop_calls (output w) <> 0%nat -> stopped w = true) ->
  _tasks (runner w') = [] /\ gathering w' = 0%nat
  /\ stop_completions (output w') = stop_calls (output w')
  /\ (stop_calls (output w') <> 0%nat -> stopped w' = true).
Proof.
  intros Hs Ht Hg Ho Hst. unfold stopped in *. destruct l; cbn [Runner.step] in Hs.
  - destruct (pump w) eqn:Ep; try discriminate. injection Hs as <-.
    unfold exec, modify. look. counts Ho Hst.
  - destruct (pump w) eqn:Ep; try discriminate.
    revert Hs. unfold exec, bind, modify, _send_command, emit, logger, emit.
    look. rewrite loop_test_spec. look.
    destruct (_running (runner w));
      intros [= <-]; unfold exec; look; counts Ho Hst.
  - destruct (pump w) eqn:Ep; try discriminate. injection Hs as <-. look.
    counts Ho Hst.
  - destruct (pump w) eqn:Ep; try discriminate.
    destruct (readline (stdin w)) as [msg rest].
    unfold exec in Hs. cbn [runner set_stdin] in Hs.
    destruct (after_read now msg (runner w)) as [[x r'] t] eqn:Ea.
    destruct (quiet_after_read now msg _ _ _ _ Ea) as ((_ & He' & Ht') & Hc0 & Hd0).
    injection Hs as <-.
    destruct x as [[|]|e]; unfold exec; look;
      rewrite ?app_nil_r, ?stop_completions_app, ?stop_calls_app, ?Ho, ?Hc0, ?Hd0,
        ?Ht', ?He';
      repeat split; try assumption; try reflexivity;
      intros Hne; apply Hst; revert Hne; cbn; rewrite ?Nat.add_0_r; trivial.
  - unfold exec in Hs. rewrite stop_enter_spec, Ht in Hs.
    cbv beta iota zeta in Hs. unfold exec in Hs. cbn [runner] in Hs.
    rewrite stop_leave_spec in Hs. injection Hs as <-. look.
    rewrite <- app_assoc.
    rewrite ?app_nil_r, ?stop_completions_app, ?stop_calls_app, ?Ho;
      repeat split; try assumption; reflexivity.
  - rewrite Hg in Hs. discriminate.
  - injection Hs as <-. unfold exec, modify. look. rewrite Ht.
    destruct i; cbn [finish]; counts Ho Hst.
  - destruct (_connection (runner w)) as [c|] eqn:Ec; [|discriminate].
    unfold exec in Hs. rewrite handle_state_change_spec, Ht in Hs.
    destruct (terminal s); injection Hs as <-; look.
    + rewrite ?app_nil_r, ?stop_completions_app, ?stop_calls_app, ?Ho;
        repeat split; try assumption; reflexivity.
    + counts Ho Hst.
  - destruct (_connection (runner w)) as [c|] eqn:Ec; [|discriminate].
    injection Hs as <-. unfold exec, _relay_api_message, _send_command. look.
    counts Ho Hst.
Qed.

(** X10. In every run of a worker that starts at [__init__], [_tasks] stays
    the empty list, since nothing in the class adds to it: the [gather]
    of [stop] has nothing to wait for, no invocation of [stop] is ever
    suspended, and each one that was entered has also set the event and
    logged its completion. *)
Theorem stop_never_waits (ls : list label) (input : str) (w : @world C) :
  steps ls (start input) = Some w ->
  _tasks (runner w) = []
  /\ gathering w = 0%nat
  /\ stop_completions (output w) = stop_calls (output w)
  /\ (stop_calls (output w) <> 0%nat -> stopped w = true).
Proof.
  assert (Hgen : forall ls (w0 w : @world C),
    steps ls w0 = Some w ->
    _tasks (runner w0) = [] -> gathering w0 = 0%nat ->
    stop_completions (output w0) = stop_calls (output w0) ->
    (stop_calls (output w0) <> 0%nat -> stopped w0 = true) ->
    _tasks (runner w) = [] /\ gathering w = 0%nat
    /\ stop_completions (output w) = stop_calls (output w)
    /\ (stop_calls (output w) <> 0%nat -> stopped w = true)).
  { clear. intros ls. induction ls as [|l ls IH]; intros w0 w Hs Ht Hg Ho Hst.
    - injection Hs as <-. auto.
    - cbn [Runner.steps] in Hs. destruct (step l w0) as [w1|] eqn:E1; [|discriminate].
      destruct (step_never_waits _ _ _ E1 Ht Hg Ho Hst) as (Ht1 & Hg1 & Ho1 & Hst1).
      exact (IH _ _ Hs Ht1 Hg1 Ho1 Hst1). }
  intros Hs. apply (Hgen _ _ _ Hs); try reflexivity.
  intros Hne. contradiction Hne. reflexivity.
Qed.

End FreshWorker.

(** *** The same at concrete inputs *)

Lemma commands_forward_to_the_facade_witness :
  _handle_message (lit "1.5")
    (VDict [(lit "command", VStr (lit "CREATE_OFFER")); (lit "data", VInt 3)])
    (runner (serving [] []))
  = (Ok tt, runner (serving [] []),
     [Stdout (line_of "SUBSCRIBER_OFFER" (VDict [(lit "offer", VInt 3)]))]).
Proof.
  exact (proj2 (proj2 (proj2 (commands_forward_to_the_facade (lit "1.5")
           (VDict [(lit "command", VStr (lit "CREATE_OFFER")); (lit "data", VInt 3)])
           (VInt 3) tt (runner (serving [] [])) eq_refl eq_refl))) eq_refl).
Defined.

Lemma set_muted_takes_a_pair_witness :
  _handle_message (lit "1.5")
    (VDict [(lit "command", VStr (lit "SET_MUTED"));
            (lit "data", VList [VBool true; VBool false; VBool true])])
    (runner (serving [] []))
  = (Raise ValueError, runner (serving [] []), []).
Proof.
  apply (proj1 (proj2 (set_muted_takes_a_pair (lit "1.5")
           (VDict [(lit "command", VStr (lit "SET_MUTED"));
                   (lit "data", VList [VBool true; VBool false; VBool true])])
           (VList [VBool true; VBool false; VBool true]) tt (runner (serving [] []))
           eq_refl eq_refl eq_refl))
         [VBool true; VBool false; VBool true]); [reflexivity | discriminate].
Defined.


Lemma unknown_command_is_logged_and_skipped_witness :
  step state_name (ReadDone (lit "1.5"))
    (serving [] (line_of "DANCE" VNone ++ line_of "PING" VNone))
  = Some {| runner := runner (serving [] []); pump := Reading;
            stdin := line_of "PING" VNone; gathering := 0%nat;
            output := [Log ERROR [Txt "Unrecognized command from main process: ";
                                  Arg (VStr (lit "DANCE"))]] |}.
Proof.
  apply (unknown_command_is_logged_and_skipped state_name (lit "1.5")
           (serving [] (line_of "DANCE" VNone ++ line_of "PING" VNone))
           (line_of "DANCE" VNone) (line_of "PING" VNone)
           (VDict [(lit "command", VStr (lit "DANCE")); (lit "data", VNone)])
           (VStr (lit "DANCE")) VNone tt); vm_compute; reflexivity.
Defined.

Lemma end_of_input_never_ends_the_pump_witness :
  steps state_name
    [ReadDone (lit "1.5"); ReadDone (lit "2.5"); ReadDone (lit "3.5")]
    (serving [] [])
  = Some {| runner := runner (serving [] []); pump := Reading; stdin := [];
            gathering := 0%nat;
            output := [parse_failure; parse_failure; parse_failure] |}.
Proof.
  apply (end_of_input_never_ends_the_pump state_name
           [lit "1.5"; lit "2.5"; lit "3.5"] (serving [] [])); reflexivity.
Defined.

Lemma sentinel_is_logged_as_a_parse_failure_witness :
  step state_name (ReadDone (lit "1.5")) (serving [] (lit "q"))
  = Some {| runner := runner (serving [] []); pump := Returned; stdin := [];
            gathering := 0%nat;
            output := [parse_failure; Log DEBUG [Txt "ConnectionRunner exiting"]] |}.
Proof.
  apply (sentinel_is_logged_as_a_parse_failure state_name (lit "1.5")
           (serving [] (lit "q")) []); reflexivity.
Defined.

(** [stop] ran while [run] was waiting for the factory. *)
Lemma run_announces_before_it_listens_witness :
  step state_name (FactoryDone tt (VStr (lit "v=0")) (VStr (lit "answer")))
    {| runner := {| _connection := None; _running := false;
                    _stopped_event := true; _tasks := [] |};
       pump := Connecting; stdin := line_of "PING" VNone; gathering := 0%nat;
       output := [Log DEBUG [Txt "ConnectionRunner Stopping"];
                  Log DEBUG [Txt "Stop complete"]] |}
  = Some {| runner := {| _connection := Some tt; _running := false;
                         _stopped_event := true; _tasks := [] |};
            pump := Returned; stdin := line_of "PING" VNone; gathering := 0%nat;
            output := [Log DEBUG [Txt "ConnectionRunner Stopping"];
                       Log DEBUG [Txt "Stop complete"];
                       Stdout (line_of "SET_LOCAL_DESCRIPTION"
                                 (VDict [(lit "sdp", VStr (lit "v=0"));
                                         (lit "type", VStr (lit "answer"))]));
                       Log DEBUG [Txt "Listening for messages from main process"];
                       Log DEBUG [Txt "ConnectionRunner exiting"]] |}.
Proof.
  exact (run_announces_before_it_listens state_name tt (VStr (lit "v=0"))
           (VStr (lit "answer"))
           {| runner := {| _connection := None; _running := false;
                           _stopped_event := true; _tasks := [] |};
              pump := Connecting; stdin := line_of "PING" VNone; gathering := 0%nat;
              output := [Log DEBUG [Txt "ConnectionRunner Stopping"];
                         Log DEBUG [Txt "Stop complete"]] |} eq_refl).
Defined.

Lemma connection_exists_while_listening_witness :
  exists w : @world unit,
    steps state_name
      [CallRun; FactoryDone tt VNone VNone; ReadDone (lit "1.5"); StateChange FAILED]
      (start (line_of "SEND" (VInt 1))) = Some w
    /\ (pump w = Reading \/ pump w = Returned ->
        exists c, _connection (runner w) = Some c)
    /\ forallb (fun e => negb (is_warning e)) (output w) = true.
Proof.
  eexists. split; [vm_compute; reflexivity|].
  apply (connection_exists_while_listening state_name
           [CallRun; FactoryDone tt VNone VNone; ReadDone (lit "1.5"); StateChange FAILED]
           (line_of "SEND" (VInt 1))).
  vm_compute. reflexivity.
Defined.

Lemma stop_never_waits_witness :
  exists w : @world unit,
    steps state_name
      [CallRun; FactoryDone tt VNone VNone; CallStop; StateChange CLOSED; TaskDone 0]
      (start []) = Some w
    /\ _tasks (runner w) = []
    /\ gathering w = 0%nat
    /\ stop_completions (output w) = stop_calls (output w)
    /\ (stop_calls (output w) <> 0%nat -> stopped w = true).
Proof.
  eexists. split; [vm_compute; reflexivity|].
  apply (stop_never_waits state_name
           [CallRun; FactoryDone tt VNone VNone; CallStop; StateChange CLOSED; TaskDone 0]
           []).
  vm_compute. reflexivity.
Defined.


(** ** The session manager and its drive *)

Section SavingFacts.

Import Sessions.

Variable SessionData : Type.
Variable new_SessionData : SessionDict -> outcome SessionData.
Variable asdict : SessionData -> SessionDict.
Variable str_of : SessionData -> str.
Variable generate_unique_id : list str -> str.

Abbreviation create_session :=
  (create_session SessionData new_SessionData asdict str_of generate_unique_id).
Abbreviation delete_session := (delete_session SessionData).
Abbreviation get_session := (get_session SessionData).
Abbreviation new_id := (_generate_unique_session_id SessionData generate_unique_id).

(** What a call of [create_session] that returns has done. *)
Lemma create_session_returns d (m m' : SessionManager SessionData) s t :
  create_session d m = (Return s, m', t) ->
  new_SessionData (with_id (new_id m) d) = Return s
  /\ (m', t)
     = (let (m2, t2) :=
          _write SessionData (asdict s)
            {| _sessions := <[new_id m := s]> (_sessions _ m); files := files _ m |} in
        (m2, Runner.Log Runner.INFO [text "New session created: "; arg (str_of s)] :: t2)).
Proof.
  unfold Sessions.create_session.
  destruct (negb (str_eqb (id d) [])); [discriminate|].
  destruct (existsb _ (participants d)); [discriminate|].
  destruct (negb (end_time d =? 0)%Z); [discriminate|].
  destruct (negb (start_time d =? 0)%Z); [discriminate|].
  destruct (new_SessionData _) as [s0|e] eqn:En; [|discriminate].
  destruct (_write SessionData (asdict s0) _) as [m2 t2] eqn:Ew.
  intros [= <- <- <-]. rewrite Ew. split; reflexivity.
Qed.

(** X11. A session [create_session] returns is registered under the new id,
    and saved in the file named after the id its dictionary carries.
    When that dictionary carries no id, the session is registered all
    the same but nothing is written: an error record is all that is
    left of the failed save. *)
Theorem create_session_saves_the_session (d : SessionDict)
    (m m' : SessionManager SessionData) (s : SessionData) (t : list log_record) :
  create_session d m = (Return s, m', t) ->
  _sessions _ m' = <[new_id m := s]> (_sessions _ m)
  /\ (id (asdict s) <> [] ->
      files _ m' = <[id (asdict s) ++ lit ".json" := asdict s]> (files _ m)
      /\ t = [log Runner.INFO [text "New session created: "; arg (str_of s)]])
  /\ (id (asdict s) = [] ->
      files _ m' = files _ m
      /\ t = [log Runner.INFO [text "New session created: "; arg (str_of s)];
              log Runner.ERROR [text "Cannot save session without ID"]]).
Proof.
  intros Hc. apply create_session_returns in Hc as [_ Hc].
  unfold _write in Hc. cbn [files _sessions] in Hc.
  destruct (str_eqb (id (asdict s)) []) eqn:E; injection Hc as -> ->.
  - apply str_eqb_eq in E. repeat split; cbn; congruence.
  - apply str_eqb_false in E. repeat split; cbn; congruence.
Qed.

(** X12. Deleting the session that was just created undoes the creation: when
    the new id was unused, no file had its name and the session's
    dictionary carries that id, the manager, memory and drive, is what
    it was before. *)
Theorem create_then_delete_restores (d : SessionDict)
    (m m' : SessionManager SessionData) (s : SessionData) (t : list log_record) :
  create_session d m = (Return s, m', t) ->
  get_session (new_id m) m = None ->
  files _ m !! (new_id m ++ lit ".json") = None ->
  id (asdict s) = new_id m ->
  new_id m <> [] ->
  delete_session (new_id m) m'
  = (Return true, m,
     [log Runner.INFO [text "Deleting session with ID: "; arg (new_id m)]]).
Proof.
  intros Hc Hs Hf Hid Hne.
  apply create_session_returns in Hc as [_ Hc].
  unfold _write in Hc. cbn [files _sessions] in Hc. rewrite Hid in Hc.
  apply str_eqb_false in Hne. rewrite Hne in Hc. injection Hc as -> ->.
  unfold Sessions.delete_session, _delete_file. cbn [_sessions files].
  rewrite !lookup_insert_eq. cbn [_sessions files]. rewrite lookup_insert_eq.
  rewrite bool_decide_eq_true_2 by discriminate.
  rewrite !delete_insert_id by assumption.
  destruct m. reflexivity.
Qed.

(** X13. [delete_session] takes one session and one file away.  Every other
    session and every other file is as before; the file named after the
    id is gone, and a warning is logged when there was no such file. *)
Theorem delete_session_takes_one_away (i : str) (m : SessionManager SessionData)
    (s : SessionData) :
  get_session i m = Some s ->
  delete_session i m
  = (Return true,
     {| _sessions := delete i (_sessions _ m);
        files := delete (i ++ lit ".json") (files _ m) |},
     log Runner.INFO [text "Deleting session with ID: "; arg i]
       :: match files _ m !! (i ++ lit ".json") with
          | Some _ => []
          | None =>
              [log Runner.WARNING
                 [text "Cant delete file, file not found. Path: ";
                  arg (i ++ lit ".json")]]
          end).
Proof.
  unfold Sessions.get_session, Sessions.delete_session, _delete_file. intros Hs.
  rewrite Hs. destruct (files _ m !! (i ++ lit ".json")) eqn:Ef; cbn [_sessions files].
  - rewrite Hs, bool_decide_eq_true_2 by discriminate. reflexivity.
  - rewrite Hs, bool_decide_eq_true_2 by discriminate.
    rewrite (delete_id _ _ Ef). reflexivity.
Qed.

End SavingFacts.

Section UpdateAndListFacts.

Import Sessions.

Variable SessionData : Type.
Variable new_SessionData : SessionDict -> outcome SessionData.
Variable asdict : SessionData -> SessionDict.
Variable str_of : SessionData -> str.
Variable generate_unique_id : list str -> str.

Abbreviation create_session :=
  (create_session SessionData new_SessionData asdict str_of generate_unique_id).
Abbreviation delete_session := (delete_session SessionData).
Abbreviation get_session := (get_session SessionData).
Abbreviation new_id := (_generate_unique_session_id SessionData generate_unique_id).
Abbreviation _handle_session_update := (_handle_session_update SessionData asdict).
Abbreviation get_session_list := (get_session_list SessionData).
Abbreviation get_session_dict_list := (get_session_dict_list SessionData asdict).

(** X14. [_handle_session_update] never changes the sessions in memory.  It
    leaves the drive alone too unless it is given the id of a known
    session; for a known session it writes the session's dictionary to
    the file named after the id the dictionary carries. *)
Theorem session_update_saves_known_sessions_only (session_id : option str)
    (m : SessionManager SessionData) :
  _sessions _ (fst (_handle_session_update session_id m)) = _sessions _ m
  /\ ((forall i, session_id = Some i -> get_session i m = None) ->
      exists msg t,
        _handle_session_update session_id m = (m, log Runner.ERROR msg :: t))
  /\ (forall i s, session_id = Some i -> get_session i m = Some s ->
      id (asdict s) <> [] ->
      _handle_session_update session_id m
      = ({| _sessions := _sessions _ m;
            files := <[id (asdict s) ++ lit ".json" := asdict s]> (files _ m) |},
         [log Runner.DEBUG [text "Handle session update: "; arg i]])).
Proof.
  unfold Sessions._handle_session_update, Sessions.get_session. repeat split.
  - destruct session_id as [i|]; [|reflexivity].
    destruct (_sessions _ m !! i) as [s|]; [|reflexivity].
    unfold _write. destruct (str_eqb (id (asdict s)) []); reflexivity.
  - intros Hn. destruct session_id as [i|]; [|eexists _, _; reflexivity].
    rewrite (Hn i eq_refl). eexists _, _. reflexivity.
  - intros i s -> Hs Hid. rewrite Hs. unfold _write.
    apply str_eqb_false in Hid. rewrite Hid. reflexivity.
Qed.

Lemma create_session_sessions d (m m' : SessionManager SessionData) s t :
  create_session d m = (Return s, m', t) ->
  _sessions _ m' = <[new_id m := s]> (_sessions _ m).
Proof.
  unfold Sessions.create_session.
  destruct (negb (str_eqb (id d) [])); [discriminate|].
  destruct (existsb _ (participants d)); [discriminate|].
  destruct (negb (end_time d =? 0)%Z); [discriminate|].
  destruct (negb (start_time d =? 0)%Z); [discriminate|].
  destruct (new_SessionData _) as [s0|e] eqn:En; [|discriminate].
  pose proof (write_keeps_sessions SessionData (asdict s0)
                {| _sessions := <[new_id m := s0]> (_sessions _ m);
                   files := files _ m |}) as Hk.
  destruct (_write SessionData (asdict s0) _) as [m2 t2].
  intros [= <- <- <-]. exact Hk.
Qed.

(** X15. The list of sessions follows the two operations: a session created
    under an unused id is one more element of [get_session_list], and
    its dictionary one more of [get_session_dict_list]; a deleted
    session is one element less.  (The lists are compared up to their
    order.) *)
Theorem session_list_follows_create_and_delete (m : SessionManager SessionData) :
  (forall d m' s t,
     create_session d m = (Return s, m', t) ->
     get_session (new_id m) m = None ->
     Permutation (get_session_list m') (s :: get_session_list m)
     /\ Permutation (get_session_dict_list m') (asdict s :: get_session_dict_list m))
  /\ (forall i s,
        get_session i m = Some s ->
        Permutation (get_session_list m)
          (s :: get_session_list (snd (fst (delete_session i m))))
        /\ Permutation (get_session_dict_list m)
             (asdict s :: get_session_dict_list (snd (fst (delete_session i m))))).
Proof.
  split.
  - intros d m' s t Hc Hf.
    assert (Hp : Permutation (get_session_list m') (s :: get_session_list m)).
    { unfold Sessions.get_session_list.
      rewrite (create_session_sessions _ _ _ _ _ Hc).
      change (s :: List.map snd (map_to_list (_sessions _ m)))
        with (List.map snd ((new_id m, s) :: map_to_list (_sessions _ m))).
      apply Permutation_map, map_to_list_insert. exact Hf. }
    split; [exact Hp|].
    unfold Sessions.get_session_dict_list.
    change (asdict s :: List.map asdict (get_session_list m))
      with (List.map asdict (s :: get_session_list m)).
    apply Permutation_map, Hp.
  - intros i s Hs.
    assert (Hp : Permutation (get_session_list m)
                   (s :: get_session_list (snd (fst (delete_session i m))))).
    { unfold Sessions.get_session, Sessions.delete_session in *. rewrite Hs.
      destruct (_delete_file SessionData (i ++ lit ".json") m) as [m1 t1] eqn:Ed.
      assert (Hk : _sessions _ m1 = _sessions _ m).
      { revert Ed. unfold _delete_file.
        destruct (files _ m !! (i ++ lit ".json")); intros [= <- <-]; reflexivity. }
      cbn [fst snd]. unfold Sessions.get_session_list. cbn [_sessions]. rewrite Hk.
      change (s :: List.map snd (map_to_list (delete i (_sessions _ m))))
        with (List.map snd ((i, s) :: map_to_list (delete i (_sessions _ m)))).
      apply Permutation_map. symmetry. apply map_to_list_delete. exact Hs. }
    split; [exact Hp|].
    unfold Sessions.get_session_dict_list.
    change (asdict s :: List.map asdict (get_session_list (snd (fst (delete_session i m)))))
      with (List.map asdict (s :: get_session_list (snd (fst (delete_session i m))))).
    apply Permutation_map, Hp.
Qed.

(** X16. [create_session] reports the first check that fails, in the order
    of the source: the id of the session, the ids of the participants,
    [end_time], [start_time]. *)
Theorem create_session_reports_the_first_failure (d : SessionDict)
    (m : SessionManager SessionData) :
  (id d <> [] ->
   create_session d m
   = (Raises (invalid_request
        "Session id must initially be set to an empty string as default value."),
      m, []))
  /\ (id d = [] ->
      (exists p, In p (participants d) /\ participant_id p <> []) ->
      create_session d m
      = (Raises (invalid_request
           "Participant id must initially be set to an empty string as default value."),
         m, []))
  /\ (id d = [] ->
      (forall p, In p (participants d) -> participant_id p = []) ->
      end_time d <> 0%Z ->
      create_session d m
      = (Raises (invalid_request
           "end_time must initially be set to the default value 0."), m, []))
  /\ (id d = [] ->
      (forall p, In p (participants d) -> participant_id p = []) ->
      end_time d = 0%Z ->
      start_time d <> 0%Z ->
      create_session d m
      = (Raises (invalid_request
           "start_time must initially be set to the default value 0."), m, [])).
Proof.
  assert (Hall : (forall p, In p (participants d) -> participant_id p = []) ->
           existsb (fun p => negb (str_eqb (participant_id p) [])) (participants d) = false).
  { intros Hps. apply not_true_is_false. intros Hex.
    apply existsb_exists in Hex as (p & Hin & Hp).
    rewrite (Hps p Hin) in Hp. discriminate. }
  unfold Sessions.create_session. repeat split.
  - intros Hid. apply str_eqb_false in Hid. rewrite Hid. reflexivity.
  - intros -> (p & Hin & Hp). change (str_eqb [] []) with true. cbn [negb].
    replace (existsb _ (participants d)) with true; [reflexivity|].
    symmetry. apply existsb_exists. exists p. split; [exact Hin|].
    apply negb_true_iff, str_eqb_false, Hp.
  - intros -> Hps He. change (str_eqb [] []) with true. cbn [negb].
    rewrite (Hall Hps). apply Z.eqb_neq in He. rewrite He. reflexivity.
  - intros -> Hps -> Hs. change (str_eqb [] []) with true. cbn [negb].
    rewrite (Hall Hps). apply Z.eqb_neq in Hs. rewrite Hs. reflexivity.
Qed.

End UpdateAndListFacts.

Section LoadingFacts.

Import Sessions.

Variable SessionData : Type.
Variable new_SessionData : SessionDict -> outcome SessionData.
Variable asdict : SessionData -> SessionDict.
Variable str_of : SessionData -> str.
Variable generate_unique_id : list str -> str.
Variable is_valid_session : SessionDict -> bool.
Variable listdir : list str.

Abbreviation create_session :=
  (create_session SessionData new_SessionData asdict str_of generate_unique_id).
Abbreviation get_session := (get_session SessionData).
Abbreviation load_file := (load_file SessionData new_SessionData is_valid_session).
Abbreviation load_files := (load_files SessionData new_SessionData is_valid_session).
Abbreviation create_missing :=
  (create_missing SessionData new_SessionData asdict str_of generate_unique_id).
Abbreviation _get_filenames := (_get_filenames SessionData listdir).
Abbreviation new_SessionManager :=
  (new_SessionManager SessionData new_SessionData asdict str_of generate_unique_id
     is_valid_session listdir).
Abbreviation first_loadable := (first_loadable SessionData new_SessionData is_valid_session).
Abbreviation loadable := (loadable SessionData new_SessionData is_valid_session).

Lemma loadable_id i d s : loadable i d = Some s -> id d = i.
Proof.
  unfold Sessions.loadable. destruct (is_valid_session d); [|discriminate].
  cbn [andb]. destruct (str_eqb (id d) i) eqn:E; [|discriminate].
  intros _. apply str_eqb_eq, E.
Qed.

(** One file: what the body of the loop does to the manager and to the
    list of the dictionaries without id. *)
Lemma load_file_spec file d (m : SessionManager SessionData) missing :
  exists m' t,
    load_file file d m missing
    = (m', missing ++ (if is_valid_session d && str_eqb (id d) [] then [d] else []), t)
    /\ files _ m' = files _ m
    /\ _sessions _ m' !! [] = _sessions _ m !! []
    /\ forall i, i <> [] ->
         match _sessions _ m' !! i with
         | Some s => Some s
         | None => first_loadable i []
         end
         = match _sessions _ m !! i with
           | Some s => Some s
           | None => loadable i d
           end.
Proof.
  unfold Sessions.load_file, Sessions.loadable.
  destruct (is_valid_session d) eqn:Ev; cbn [negb andb].
  2:{ eexists _, _. rewrite app_nil_r. split; [reflexivity|].
      split; [reflexivity|]. split; [reflexivity|].
      intros i _. destruct (_sessions _ m !! i); reflexivity. }
  destruct (str_eqb (id d) []) eqn:Eb.
  { eexists _, _. split; [reflexivity|].
    split; [reflexivity|]. split; [reflexivity|].
    intros i Hi. apply str_eqb_eq in Eb. rewrite Eb.
    replace (str_eqb [] i) with false
      by (symmetry; apply str_eqb_false; congruence).
    destruct (_sessions _ m !! i); reflexivity. }
  apply str_eqb_false in Eb.
  destruct (_sessions _ m !! id d) as [s0|] eqn:Es.
  { eexists _, _. rewrite app_nil_r. split; [reflexivity|].
    split; [reflexivity|]. split; [reflexivity|].
    intros i _. destruct (str_eqb (id d) i) eqn:Ei.
    - apply str_eqb_eq in Ei. subst i. rewrite Es. reflexivity.
    - destruct (_sessions _ m !! i); reflexivity. }
  destruct (new_SessionData d) as [s|e] eqn:En.
  - eexists _, _. rewrite app_nil_r. split; [reflexivity|]. cbn [files _sessions].
    split; [reflexivity|]. split; [apply lookup_insert_ne; exact Eb|].
    intros i _. destruct (str_eqb (id d) i) eqn:Ei.
    + apply str_eqb_eq in Ei. subst i. rewrite lookup_insert_eq, Es. reflexivity.
    + apply str_eqb_false in Ei. rewrite lookup_insert_ne by exact Ei.
      destruct (_sessions _ m !! i); reflexivity.
  - eexists _, _. rewrite app_nil_r. split; [reflexivity|].
    split; [reflexivity|]. split; [reflexivity|].
    intros i _. destruct (str_eqb (id d) i); destruct (_sessions _ m !! i); reflexivity.
Qed.

(** The first loop over names whose files exist: it never fails, it
    leaves the drive alone, it collects the valid dictionaries without
    id, and an id not loaded before gets its first loadable file. *)
Lemma load_files_spec filenames ds : forall (m : SessionManager SessionData) missing,
  Forall2 (fun f d => files _ m !! f = Some d) filenames ds ->
  exists m' t,
    load_files filenames m missing
    = (None, m',
       missing ++ List.filter (fun d => is_valid_session d && str_eqb (id d) []) ds, t)
    /\ files _ m' = files _ m
    /\ _sessions _ m' !! [] = _sessions _ m !! []
    /\ forall i, i <> [] ->
         _sessions _ m' !! i
         = match _sessions _ m !! i with
           | Some s => Some s
           | None => first_loadable i ds
           end.
Proof.
  revert filenames. induction ds as [|d ds IH]; intros filenames m missing Hf.
  - apply Forall2_nil_inv_r in Hf. subst filenames. eexists _, _.
    cbn. rewrite app_nil_r. split; [reflexivity|].
    split; [reflexivity|]. split; [reflexivity|].
    intros i _. destruct (_sessions _ m !! i); reflexivity.
  - apply Forall2_cons_inv_r in Hf as (f & fs & Hd & Hfs & ->).
    cbn [Sessions.load_files]. unfold _read. rewrite Hd.
    destruct (load_file_spec f d m missing) as (m1 & t1 & E1 & F1 & N1 & S1).
    rewrite E1.
    assert (Hfs1 : Forall2 (fun f d => files _ m1 !! f = Some d) fs ds)
      by (rewrite F1; exact Hfs).
    destruct (IH fs m1 (missing ++ (if is_valid_session d && str_eqb (id d) []
                                    then [d] else [])) Hfs1)
      as (m2 & t2 & E2 & F2 & N2 & S2).
    rewrite E2. eexists _, _. split.
    + cbn [List.filter]. rewrite <- app_assoc.
      destruct (is_valid_session d && str_eqb (id d) []); reflexivity.
    + split; [congruence|]. split; [congruence|].
      intros i Hi. rewrite (S2 i Hi). specialize (S1 i Hi).
      cbn [Sessions.first_loadable] in *.
      destruct (_sessions _ m1 !! i) as [s1|]; destruct (_sessions _ m !! i) as [s0|];
        try congruence.
      * rewrite <- S1. reflexivity.
      * rewrite <- S1. reflexivity.
Qed.

(** Every name [_get_filenames] returns can be read. *)
Lemma get_filenames_read (m : SessionManager SessionData) :
  Forall2 (fun f d => files _ m !! f = Some d) (_get_filenames m)
    (omap (fun f => files _ m !! f) listdir).
Proof.
  unfold Sessions._get_filenames. induction listdir as [|f fs IH]; [constructor|].
  cbn [List.filter omap list_omap].
  destruct (files _ m !! f) as [d|] eqn:E.
  - rewrite bool_decide_eq_true_2 by eauto. constructor; assumption.
  - rewrite bool_decide_eq_false_2 by (intros [? ?]; discriminate). exact IH.
Qed.

Lemma first_loadable_none i ds :
  (forall d, In d ds -> is_valid_session d = true -> id d <> i) ->
  first_loadable i ds = None.
Proof.
  induction ds as [|d ds IH]; intros Hd; [reflexivity|].
  cbn [Sessions.first_loadable].
  destruct (loadable i d) as [s|] eqn:El.
  - exfalso. pose proof (loadable_id _ _ _ El) as Hi.
    apply (Hd d); [left; reflexivity| |exact Hi].
    revert El. unfold Sessions.loadable.
    destruct (is_valid_session d); [reflexivity|discriminate].
  - apply IH. intros d' Hin. apply Hd. right. exact Hin.
Qed.

Lemma filter_none {A} (f : A -> bool) l :
  (forall x, In x l -> f x = false) -> List.filter f l = [].
Proof.
  induction l as [|x l IH]; intros Hf; [reflexivity|]. cbn [List.filter].
  rewrite (Hf x) by (left; reflexivity). apply IH. intros y Hy. apply Hf. right. exact Hy.
Qed.

Lemma in_listed_files (drive : gmap str SessionDict) d :
  In d (omap (fun f => drive !! f) listdir) ->
  exists f, In f listdir /\ drive !! f = Some d.
Proof.
  intros Hin. apply list_elem_of_In, list_elem_of_omap in Hin as (f & Hf & Hd).
  exists f. split; [apply list_elem_of_In, Hf | exact Hd].
Qed.

Lemma create_session_rejects d (m : SessionManager SessionData) :
  (exists p, In p (participants d) /\ participant_id p <> [])
  \/ end_time d <> 0%Z \/ start_time d <> 0%Z ->
  exists e, create_session d m = (Raises e, m, []) /\ code e = 400%Z.
Proof.
  intros Hbad. unfold Sessions.create_session.
  destruct (negb (str_eqb (id d) [])); [eexists; split; reflexivity|].
  destruct (existsb _ (participants d)) eqn:Ep; [eexists; split; reflexivity|].
  destruct (end_time d =? 0)%Z eqn:Ee; cbn [negb]; [|eexists; split; reflexivity].
  destruct (start_time d =? 0)%Z eqn:Es; cbn [negb]; [|eexists; split; reflexivity].
  exfalso. apply Z.eqb_eq in Ee, Es.
  destruct Hbad as [(p & Hin & Hp)|[Hb|Hb]]; try contradiction.
  assert (existsb (fun p => negb (str_eqb (participant_id p) [])) (participants d) = true);
    [|congruence].
  apply existsb_exists. exists p. split; [exact Hin|].
  apply negb_true_iff, str_eqb_false, Hp.
Qed.

(** X17. Building a [SessionManager] on a directory none of whose valid
    files lacks an id (a file holds the dictionary [json.load] reads
    from it): the construction returns, it leaves the drive as it found
    it, and the manager holds, for every id, the session of the first
    file, in the order [os.listdir] gives, that is valid, carries that
    id and is accepted by the constructor of [SessionData].  Invalid
    files, later files with an id already loaded, files the constructor
    rejects and names that are no files are passed over. *)
Theorem new_SessionManager_loads_the_first_file_of_each_id
    (drive : gmap str SessionDict) :
  (forall f d, In f listdir -> drive !! f = Some d ->
     is_valid_session d = true -> id d <> []) ->
  exists m t,
    new_SessionManager drive = (None, m, t)
    /\ files _ m = drive
    /\ forall i,
         get_session i m = first_loadable i (omap (fun f => drive !! f) listdir).
Proof.
  intros Hids. unfold Sessions.new_SessionManager, Sessions._read_files_from_drive.
  set (m0 := {| _sessions := ∅; files := drive |}).
  destruct (load_files_spec _ _ m0 [] (get_filenames_read m0))
    as (m1 & t1 & E1 & F1 & N1 & S1).
  change (files _ m0) with drive in *.
  replace (List.filter _ (omap (fun f => drive !! f) listdir)) with (@nil SessionDict) in E1.
  2:{ symmetry. apply filter_none. intros d Hin.
      destruct (in_listed_files _ _ Hin) as (f & Hf & Hd).
      destruct (is_valid_session d) eqn:Ev; [|reflexivity]. cbn [andb].
      apply str_eqb_false. exact (Hids f d Hf Hd Ev). }
  cbn [app] in E1.
  change (Sessions.load_files SessionData new_SessionData is_valid_session)
    with load_files.
  rewrite E1. cbn [Sessions.create_missing].
  eexists _, _. split; [reflexivity|]. split; [exact F1|].
  intros i. unfold Sessions.get_session.
  destruct (decide (i = [])) as [->|Hi].
  - rewrite N1. cbn [m0 _sessions]. rewrite lookup_empty. symmetry.
    apply first_loadable_none. intros d Hin Hv.
    destruct (in_listed_files _ _ Hin) as (f & Hf & Hd). exact (Hids f d Hf Hd Hv).
  - rewrite (S1 i Hi). cbn [m0 _sessions]. rewrite lookup_empty. reflexivity.
Qed.

(** X18. A valid file without an id is handed to [create_session] once the
    other files are loaded, and the checks of [create_session] apply to
    it.  When the first such file of the directory has a participant
    with an id, or an [end_time] or [start_time] other than 0, the
    [ErrorDictException] with code 400 leaves [__init__]: no manager is
    built, and nothing was written to the drive. *)
Theorem file_without_id_can_fail_the_construction
    (drive : gmap str SessionDict) (d : SessionDict) (rest : list SessionDict) :
  List.filter (fun d => is_valid_session d && str_eqb (id d) [])
    (omap (fun f => drive !! f) listdir) = d :: rest ->
  (exists p, In p (participants d) /\ participant_id p <> [])
  \/ end_time d <> 0%Z \/ start_time d <> 0%Z ->
  exists e m t,
    new_SessionManager drive = (Some (Rejected e), m, t)
    /\ code e = 400%Z
    /\ files _ m = drive.
Proof.
  intros Hblank Hbad. unfold Sessions.new_SessionManager, Sessions._read_files_from_drive.
  set (m0 := {| _sessions := ∅; files := drive |}).
  destruct (load_files_spec _ _ m0 [] (get_filenames_read m0))
    as (m1 & t1 & E1 & F1 & N1 & S1).
  change (files _ m0) with drive in *. rewrite Hblank in E1. cbn [app] in E1.
  change (Sessions.load_files SessionData new_SessionData is_valid_session)
    with load_files.
  rewrite E1. cbn [Sessions.create_missing].
  destruct (create_session_rejects d m1 Hbad) as (e & Ec & Hcode).
  change (Sessions.create_session SessionData new_SessionData asdict str_of
            generate_unique_id) with create_session.
  rewrite Ec. eexists _, _, _. split; [reflexivity|]. split; assumption.
Qed.

End LoadingFacts.

Section SavingExamples.

Import Sessions.

Lemma create_session_saves_the_session_witness :
  let m := empty_manager in
  let s := with_id (lit "s") blank_session in
  let m' := {| _sessions := {[ lit "s" := s ]}; files := {[ lit "s.json" := s ]} |} in
  let t := [log Runner.INFO [text "New session created: "; arg (lit "s")]] in
  _sessions _ m'
  = <[_generate_unique_session_id SessionDict longer_id m := s]> (_sessions _ m)
  /\ (id s <> [] ->
      files _ m' = <[id s ++ lit ".json" := s]> (files _ m)
      /\ t = [log Runner.INFO [text "New session created: "; arg (id s)]])
  /\ (id s = [] ->
      files _ m' = files _ m
      /\ t = [log Runner.INFO [text "New session created: "; arg (id s)];
              log Runner.ERROR [text "Cannot save session without ID"]]).
Proof.
  apply (create_session_saves_the_session SessionDict plain_new (fun d => d) id
           longer_id blank_session empty_manager).
  vm_compute. reflexivity.
Defined.

Lemma create_then_delete_restores_witness :
  Sessions.delete_session SessionDict (lit "s")
    {| _sessions := {[ lit "s" := with_id (lit "s") blank_session ]};
       files := {[ lit "s.json" := with_id (lit "s") blank_session ]} |}
  = (Return true, empty_manager,
     [log Runner.INFO [text "Deleting session with ID: "; arg (lit "s")]]).
Proof.
  apply (create_then_delete_restores SessionDict plain_new (fun d => d) id longer_id
           blank_session empty_manager _ (with_id (lit "s") blank_session)
           [log Runner.INFO [text "New session created: "; arg (lit "s")]]).
  - vm_compute. reflexivity.
  - reflexivity.
  - reflexivity.
  - reflexivity.
  - discriminate.
Defined.

Lemma delete_session_takes_one_away_witness :
  Sessions.delete_session SessionDict (lit "s")
    {| _sessions := {[ lit "s" := blank_session ]}; files := empty |}
  = (Return true,
     {| _sessions := delete (lit "s") {[ lit "s" := blank_session ]};
        files := delete (lit "s" ++ lit ".json") empty |},
     log Runner.INFO [text "Deleting session with ID: "; arg (lit "s")]
       :: match (empty : gmap (list N) SessionDict) !! (lit "s" ++ lit ".json") with
          | Some _ => []
          | None =>
              [log Runner.WARNING
                 [text "Cant delete file, file not found. Path: ";
                  arg (lit "s" ++ lit ".json")]]
          end).
Proof.
  refine (delete_session_takes_one_away SessionDict (lit "s")
            {| _sessions := {[ lit "s" := blank_session ]}; files := empty |}
            blank_session _).
  vm_compute. reflexivity.
Defined.

Lemma session_update_saves_known_sessions_only_witness :
  Sessions._handle_session_update SessionDict (fun d => d) (Some (lit "s"))
    {| _sessions := {[ lit "s" := with_id (lit "s") blank_session ]}; files := empty |}
  = ({| _sessions := {[ lit "s" := with_id (lit "s") blank_session ]};
        files := <[lit "s" ++ lit ".json" := with_id (lit "s") blank_session]> empty |},
     [log Runner.DEBUG [text "Handle session update: "; arg (lit "s")]]).
Proof.
  refine (proj2 (proj2 (session_update_saves_known_sessions_only SessionDict
            (fun d => d) (Some (lit "s"))
            {| _sessions := {[ lit "s" := with_id (lit "s") blank_session ]};
               files := empty |}))
          (lit "s") (with_id (lit "s") blank_session) _ _ _).
  - reflexivity.
  - vm_compute. reflexivity.
  - discriminate.
Defined.

Lemma session_list_follows_create_and_delete_witness :
  Permutation
    (Sessions.get_session_list SessionDict
       {| _sessions := {[ lit "s" := blank_session ]}; files := empty |})
    (blank_session
       :: Sessions.get_session_list SessionDict
            (snd (fst (Sessions.delete_session SessionDict (lit "s")
                         {| _sessions := {[ lit "s" := blank_session ]};
                            files := empty |}))))
  /\ Permutation
       (Sessions.get_session_dict_list SessionDict (fun d => d)
          {| _sessions := {[ lit "s" := blank_session ]}; files := empty |})
       (blank_session
          :: Sessions.get_session_dict_list SessionDict (fun d => d)
               (snd (fst (Sessions.delete_session SessionDict (lit "s")
                            {| _sessions := {[ lit "s" := blank_session ]};
                               files := empty |})))).
Proof.
  refine (proj2 (session_list_follows_create_and_delete SessionDict plain_new
                   (fun d => d) id longer_id
                   {| _sessions := {[ lit "s" := blank_session ]}; files := empty |})
            (lit "s") blank_session _).
  vm_compute. reflexivity.
Defined.

Lemma create_session_reports_the_first_failure_witness :
  Sessions.create_session SessionDict plain_new (fun d => d) id longer_id
    {| id := []; participants := []; end_time := 5; start_time := 7; fields := VNone |}
    empty_manager
  = (Raises (invalid_request
       "end_time must initially be set to the default value 0."),
     empty_manager, []).
Proof.
  refine (proj1 (proj2 (proj2 (create_session_reports_the_first_failure SessionDict
            plain_new (fun d => d) id longer_id
            {| id := []; participants := []; end_time := 5; start_time := 7;
               fields := VNone |}
            empty_manager))) _ _ _).
  - reflexivity.
  - intros p [].
  - discriminate.
Defined.

End SavingExamples.

Section LoadingExamples.

Import Sessions.

Lemma new_SessionManager_loads_the_first_file_of_each_id_witness :
  exists m t,
    Sessions.new_SessionManager SessionDict plain_new (fun d => d) id longer_id
      started some_names some_drive
    = (None, m, t)
    /\ files _ m = some_drive
    /\ forall i,
         Sessions.get_session SessionDict i m
         = Sessions.first_loadable SessionDict plain_new started i
             (omap (fun f => some_drive !! f) some_names).
Proof.
  apply (new_SessionManager_loads_the_first_file_of_each_id SessionDict plain_new
           (fun d => d) id longer_id started some_names some_drive).
  intros f d [<-|[<-|[<-|[<-|[]]]]]; vm_compute; intros [= <-]; discriminate.
Defined.

Lemma file_without_id_can_fail_the_construction_witness :
  exists e m t,
    Sessions.new_SessionManager SessionDict plain_new (fun d => d) id longer_id
      started some_names drive_with_blank
    = (Some (Rejected e), m, t)
    /\ code e = 400%Z
    /\ files _ m = drive_with_blank.
Proof.
  apply (file_without_id_can_fail_the_construction SessionDict plain_new
           (fun d => d) id longer_id started some_names drive_with_blank
           (stored [] 7) []).
  - vm_compute. reflexivity.
  - right. right. discriminate.
Defined.

End LoadingExamples.
